(** * Datagrid: request-state synchronisation of [src/datagrid.js]

    A shallow embedding of the [Datagrid] component: its request parameters,
    the three trigger handlers ([sort-request], [pagination-request],
    [search-request]), the [data-ready] handler, and the calls it makes on its
    collaborators (the HTTP client, the history module, the pagination
    widget).  Calls on collaborators are recorded in logs kept in the state.

    Conventions of the model.
    - Numbers are doubles.  The quotient of the page count is computed as
      the code computes it: both operands are rounded to doubles, divided
      with the result rounded to the nearest double (ties to even), and
      [Math.round] is applied to that double.  [parseInt] is modelled on
      exact integers, which is what the code computes for numerals of
      magnitude up to 2^53 with ASCII white space before them.
    - The component is a well-formed table: it has a [tbody], and the rows
      template named by [data-rows-template] exists.  Only the [th] cells and
      their [data-column] / [data-sort] attributes are modelled in detail.
    - Strings are byte strings. *)

From Stdlib Require Import ZArith Lia Ascii String DecimalString DecimalNat.
From stdpp Require Import base option strings list gmap.

Local Open Scope string_scope.

(** ** JavaScript values *)

Module Js.

(** A number: the result of [parseInt], of a division, of [Math.round]. *)
Inductive number :=
| NaN
| Infinity (negative : bool)
| Num (z : Z).

(** A value that is [undefined], [null] or a string: what [getAttribute],
    a query-string read or a property read of a string map gives. *)
Inductive value :=
| Undefined
| Null
| Str (s : string).

(** [getAttribute] and the query-string reader return [null] for a missing
    entry. *)
Definition of_nullable (o : option string) : value :=
  match o with
  | Some s => Str s
  | None => Null
  end.

(** String concatenation coerces its operand with [ToString]. *)
Definition to_string (v : value) : string :=
  match v with
  | Undefined => "undefined"
  | Null => "null"
  | Str s => s
  end.

(** Truthiness of a string-or-null value: [null], [undefined] and the empty
    string are falsy. *)
Definition truthy (v : value) : bool :=
  match v with
  | Str s => negb (String.eqb s "")
  | _ => false
  end.

(** *** [parseInt] with no radix argument

    The integer is kept exact: the code rounds it to the nearest double,
    which changes nothing up to 2^53.  White space is the ASCII one. *)

Definition is_white_space (c : ascii) : bool :=
  let n := nat_of_ascii c in
  Nat.eqb n 32 || (Nat.leb 9 n && Nat.leb n 13).

Fixpoint trim_start (s : string) : string :=
  match s with
  | String c s' => if is_white_space c then trim_start s' else s
  | EmptyString => s
  end.

(** Value of a character as a digit of some radix up to 36. *)
Definition digit_of (c : ascii) : option Z :=
  let n := Z.of_nat (nat_of_ascii c) in
  if (48 <=? n)%Z && (n <=? 57)%Z then Some (n - 48)%Z
  else if (97 <=? n)%Z && (n <=? 122)%Z then Some (n - 87)%Z
  else if (65 <=? n)%Z && (n <=? 90)%Z then Some (n - 55)%Z
  else None.

(** The longest prefix of digits of the radix; [acc] is [None] until a
    digit has been read. *)
Fixpoint parse_digits (radix : Z) (s : string) (acc : option Z) : option Z :=
  match s with
  | EmptyString => acc
  | String c s' =>
      match digit_of c with
      | Some d =>
          if (d <? radix)%Z
          then parse_digits radix s' (Some (radix * default 0%Z acc + d)%Z)
          else acc
      | None => acc
      end
  end.

Definition strip_sign (s : string) : bool * string :=
  match s with
  | String "-"%char s' => (true, s')
  | String "+"%char s' => (false, s')
  | _ => (false, s)
  end.

Definition strip_hex_prefix (s : string) : Z * string :=
  match s with
  | String "0"%char (String "x"%char s') => (16%Z, s')
  | String "0"%char (String "X"%char s') => (16%Z, s')
  | _ => (10%Z, s)
  end.

Definition parseInt (s : string) : number :=
  let '(negative, s1) := strip_sign (trim_start s) in
  let '(radix, s2) := strip_hex_prefix s1 in
  match parse_digits radix s2 None with
  | None => NaN
  | Some z => Num (if negative then (- z)%Z else z)
  end.

(** [parseInt(v)] for a string-or-null value: the argument is first
    converted with [ToString]. *)
Definition parseInt_value (v : value) : number := parseInt (to_string v).

(** *** Doubles

    A double is [NaN], an infinity, or a finite number [m * 2^e] with a
    sign (a zero has [m = 0]). *)
Inductive double :=
| DNaN
| DInf (negative : bool)
| DFin (negative : bool) (m e : Z).

Local Open Scope Z_scope.

(** [a / b] rounded to the nearest integer, a tie going to the even one;
    for [0 <= a] and [0 < b]. *)
Definition div_rne (a b : Z) : Z :=
  let q := a / b in
  let r := a mod b in
  if 2 * r <? b then q
  else if b <? 2 * r then q + 1
  else if Z.even q then q else q + 1.

(** The position of the leading bit of [num / den]: the [k] with
    [2^k <= num / den < 2^(k+1)]; for [0 < num] and [0 < den]. *)
Definition quot_log2 (num den : Z) : Z :=
  let k := Z.log2 num - Z.log2 den in
  if den * 2 ^ Z.max k 0 <=? num * 2 ^ Z.max (- k) 0 then k else k - 1.

(** The double nearest to [num / den], ties to even, with the given sign;
    for [0 <= num] and [0 < den].  The significand has 53 bits, fewer for a
    subnormal number (exponent -1074); a result of [2^1024] or more is an
    infinity. *)
Definition round_double (negative : bool) (num den : Z) : double :=
  if num =? 0 then DFin negative 0 0
  else
    let e := Z.max (quot_log2 num den - 52) (-1074) in
    let m := div_rne (num * 2 ^ Z.max (- e) 0) (den * 2 ^ Z.max e 0) in
    if 2 ^ 1024 <=? m * 2 ^ Z.max e 0 then DInf negative
    else DFin negative m e.

(** The double an integer of a JSON text is read as. *)
Definition to_double (z : Z) : double :=
  round_double (z <? 0) (Z.abs z) 1.

(** [x / y] on doubles. *)
Definition div_double (x y : double) : double :=
  match x, y with
  | DNaN, _ | _, DNaN => DNaN
  | DInf _, DInf _ => DNaN
  | DInf s, DFin s' _ _ => DInf (xorb s s')
  | DFin s _ _, DInf s' => DFin (xorb s s') 0 0
  | DFin s m e, DFin s' m' e' =>
      if m' =? 0 then
        if m =? 0 then DNaN else DInf (xorb s s')
      else
        let c := Z.min e e' in
        round_double (xorb s s') (m * 2 ^ (e - c)) (m' * 2 ^ (e' - c))
  end.

(** [Math.round(x)]: the integer nearest to [x], the larger one on a tie:
    [floor (x + 1/2)]. *)
Definition Math_round (x : double) : number :=
  match x with
  | DNaN => NaN
  | DInf s => Infinity s
  | DFin s m e =>
      let v := if s then - m else m in
      Num ((2 * v * 2 ^ Z.max e 0 + 2 ^ Z.max (- e) 0)
           / (2 * 2 ^ Z.max (- e) 0))
  end.

Local Close Scope Z_scope.

(** *** [Math.round(a / b)] on integer-or-missing operands

    A missing operand is [undefined], which [/] converts to [NaN]; an
    integer operand is the double it was read as. *)
Definition round_div (a b : option Z) : number :=
  match a, b with
  | Some a, Some b => Math_round (div_double (to_double a) (to_double b))
  | _, _ => NaN
  end.

End Js.

Export Js.

(** ** The header cells of the component *)

Module Dom.

(** A [th] element, reduced to the two attributes the component reads and
    writes.  [None] is a missing attribute. *)
Record Th := mkTh {
  data_column : option string;
  data_sort : option string;
}.

Definition removeAttribute_data_sort (th : Th) : Th :=
  mkTh (data_column th) None.

Definition setAttribute_data_sort (v : string) (th : Th) : Th :=
  mkTh (data_column th) (Some v).

(** [querySelector('th[data-sort]')]: the first header cell that carries a
    [data-sort] attribute, with its position. *)
Definition querySelector_th_data_sort (ths : list Th) : option (nat * Th) :=
  list_find (λ th, is_Some (data_sort th)) ths.

(** What the selector parser accepts as the unquoted value in
    [th[data-column=...]]: an identifier.  The recogniser covers
    identifiers written without escapes: an optional hyphen, then a letter,
    an underscore or a non-ASCII byte, then letters, digits, hyphens,
    underscores and non-ASCII bytes. *)
Definition is_name_start (c : ascii) : bool :=
  let n := nat_of_ascii c in
  (Nat.leb 97 n && Nat.leb n 122) || (Nat.leb 65 n && Nat.leb n 90)
  || Nat.eqb n 95 || Nat.leb 128 n.

Definition is_name_char (c : ascii) : bool :=
  let n := nat_of_ascii c in
  is_name_start c || (Nat.leb 48 n && Nat.leb n 57) || Nat.eqb n 45.

Fixpoint all_name_chars (s : string) : bool :=
  match s with
  | EmptyString => true
  | String c s' => is_name_char c && all_name_chars s'
  end.

Definition css_ident (s : string) : bool :=
  match s with
  | String "-"%char (String c s') => is_name_start c && all_name_chars s'
  | String c s' => is_name_start c && all_name_chars s'
  | EmptyString => false
  end.

(** Result of a [querySelector] call whose selector text is built at run
    time: a malformed selector raises [SyntaxError]. *)
Inductive selected :=
| SyntaxError
| Selected (found : option nat).

(** [querySelector('th[data-column=' + column + ']')]: the position of the
    first header cell whose [data-column] equals the identifier. *)
Definition querySelector_th_data_column (column : string) (ths : list Th)
  : selected :=
  if css_ident column
  then Selected (fst <$> list_find (λ th, data_column th = Some column) ths)
  else SyntaxError.

End Dom.

Export Dom.

(** ** The component *)

Module Datagrid.

(** *** Data *)

(** The parameters sent with every request ([that.requestParams]).
    [search] is [None] when the object has no [search] property. *)
Record RequestParams := mkRequestParams {
  page : number;
  rowCount : number;
  sortColumn : value;
  sortDirection : value;
  search : option string;
}.

Definition set_page (n : number) (p : RequestParams) : RequestParams :=
  mkRequestParams n (rowCount p) (sortColumn p) (sortDirection p) (search p).

Definition set_sortColumn (v : value) (p : RequestParams) : RequestParams :=
  mkRequestParams (page p) (rowCount p) v (sortDirection p) (search p).

Definition set_sortDirection (v : value) (p : RequestParams) : RequestParams :=
  mkRequestParams (page p) (rowCount p) (sortColumn p) v (search p).

Definition set_search (s : string) (p : RequestParams) : RequestParams :=
  mkRequestParams (page p) (rowCount p) (sortColumn p) (sortDirection p) (Some s).

(** The JSON body of a response.  A missing numeric field is [None]. *)
Record Body := mkBody {
  current : option Z;
  body_rowCount : option Z;
  total : option Z;
  rows : list (list (string * string));
}.

(** A response of the HTTP client; [body] is [None] when the response
    carries no parsed JSON object. *)
Record Response := mkResponse { body : option Body }.

(** The error object of the HTTP client. *)
Record Error := mkError { message : string }.

(** What a listener of [data-ready] can be handed. *)
Inductive Payload :=
| NoResponse                      (* undefined *)
| GotResponse (r : Response)
| ErrorObject (e : Error).

(** [body] read off a payload: reading a property of [undefined] raises,
    an error object has no [body], a response has one or [null]. *)
Inductive body_read :=
| ReadRaises
| ReadNothing
| ReadBody (b : Body).

Definition read_body (d : Payload) : body_read :=
  match d with
  | NoResponse => ReadRaises
  | ErrorObject _ => ReadNothing
  | GotResponse r =>
      match body r with
      | Some b => ReadBody b
      | None => ReadNothing
      end
  end.

(** JSON values of a serialised [RequestParams]. *)
Inductive json :=
| JNull
| JNum (z : Z)
| JStr (s : string).

(** State of the pagination widget: what its three setters were last given;
    a fresh widget has been given nothing. *)
Record Pagination := mkPagination {
  pg_page : option number;
  pageCount : option number;
  pg_requestParams : option (list (string * json));
}.

Definition setPage (n : number) (w : Pagination) : Pagination :=
  mkPagination (Some n) (pageCount w) (pg_requestParams w).

Definition setPageCount (n : number) (w : Pagination) : Pagination :=
  mkPagination (pg_page w) (Some n) (pg_requestParams w).

Definition setRequestParams (c : list (string * json)) (w : Pagination)
  : Pagination :=
  mkPagination (pg_page w) (pageCount w) (Some c).

(** A call on the history module, with the parameters as they are at the
    call. *)
Inductive HistoryCall :=
| HistoryReplace (p : RequestParams)
| HistoryPush (p : RequestParams).

(** A call of the HTTP client: [superagent.get(src).query(params)]. *)
Record Get := mkGet {
  get_url : value;
  get_query : RequestParams;
}.

(** Content of the table body. *)
Inductive Tbody :=
| TbodyMarkup                       (* as delivered with the page *)
| TbodyLoading (colspan : nat)      (* the loading placeholder row *)
| TbodyRows (context : body_read).  (* output of the rows template *)

(** The host element: its [data-src] attribute and its header cells. *)
Record Component := mkComponent {
  data_src : option string;
  header_cells : list Th;
}.

(** The object built by [new Datagrid(component)], together with the parts
    of the page it changes and the logs of its calls on the HTTP client and
    on the history module (newest call first). *)
Record Datagrid := mkDatagrid {
  firstLoad : bool;
  data : option Payload;              (* [None] is the initial [null] *)
  pagination : Pagination;
  searchTerm : option string;         (* [searchbar.searchTerm] *)
  ths : list Th;                      (* header cells of the component *)
  tbody : Tbody;
  toolbarFooter : option Pagination;  (* pagination markup in the footer *)
  src : value;
  requestParams : RequestParams;
  requests : list Get;
  history : list HistoryCall;
}.

Definition set_data (d : Payload) (that : Datagrid) : Datagrid :=
  mkDatagrid (firstLoad that) (Some d) (pagination that) (searchTerm that)
    (ths that) (tbody that) (toolbarFooter that) (src that)
    (requestParams that) (requests that) (history that).

Definition set_pagination (w : Pagination) (that : Datagrid) : Datagrid :=
  mkDatagrid (firstLoad that) (data that) w (searchTerm that)
    (ths that) (tbody that) (toolbarFooter that) (src that)
    (requestParams that) (requests that) (history that).

Definition set_searchTerm (s : string) (that : Datagrid) : Datagrid :=
  mkDatagrid (firstLoad that) (data that) (pagination that) (Some s)
    (ths that) (tbody that) (toolbarFooter that) (src that)
    (requestParams that) (requests that) (history that).

Definition set_ths (l : list Th) (that : Datagrid) : Datagrid :=
  mkDatagrid (firstLoad that) (data that) (pagination that) (searchTerm that)
    l (tbody that) (toolbarFooter that) (src that)
    (requestParams that) (requests that) (history that).

Definition set_tbody (t : Tbody) (that : Datagrid) : Datagrid :=
  mkDatagrid (firstLoad that) (data that) (pagination that) (searchTerm that)
    (ths that) t (toolbarFooter that) (src that)
    (requestParams that) (requests that) (history that).

Definition set_toolbarFooter (w : Pagination) (that : Datagrid) : Datagrid :=
  mkDatagrid (firstLoad that) (data that) (pagination that) (searchTerm that)
    (ths that) (tbody that) (Some w) (src that)
    (requestParams that) (requests that) (history that).

Definition set_requestParams (p : RequestParams) (that : Datagrid) : Datagrid :=
  mkDatagrid (firstLoad that) (data that) (pagination that) (searchTerm that)
    (ths that) (tbody that) (toolbarFooter that) (src that)
    p (requests that) (history that).

Definition log_request (g : Get) (that : Datagrid) : Datagrid :=
  mkDatagrid (firstLoad that) (data that) (pagination that) (searchTerm that)
    (ths that) (tbody that) (toolbarFooter that) (src that)
    (requestParams that) (g :: requests that) (history that).

Definition log_history (h : HistoryCall) (that : Datagrid) : Datagrid :=
  mkDatagrid (firstLoad that) (data that) (pagination that) (searchTerm that)
    (ths that) (tbody that) (toolbarFooter that) (src that)
    (requestParams that) (requests that) (h :: history that).

(** *** Exceptions

    A method either returns or raises; either way it leaves a state. *)
Inductive exception :=
| TypeError
| DOMSyntaxError.

Inductive outcome :=
| Done (that : Datagrid)
| Threw (e : exception) (that : Datagrid).

Definition state_of (o : outcome) : Datagrid :=
  match o with
  | Done that => that
  | Threw _ that => that
  end.

Definition and_then (o : outcome) (k : Datagrid → outcome) : outcome :=
  match o with
  | Done that => k that
  | Threw e that => Threw e that
  end.

Notation "o >>> k" := (and_then o k) (at level 60, right associativity).

(** *** Constants of the constructor *)

Definition DEFAULT_PAGE : number := Num 1.
Definition DEFAULT_ROWS : number := Num 15.
Definition DEFAULT_SORT : string := "desc".

Definition replacementSorts : gmap string string :=
  {[ "asc" := "desc"; "desc" := "asc" ]}.

(** [that.replacementSorts[key]]; a key that is not in the object reads as
    [undefined].  (Keys that name a member every object inherits, such as
    [constructor], are outside the model: no header cell is expected to
    declare such a direction.) *)
Definition replacementSorts_get (key : string) : value :=
  match replacementSorts !! key with
  | Some d => Str d
  | None => Undefined
  end.

(** *** Collaborators *)

(** [url.readQueryString(key)] on the query string of the page, given as
    the map of its parameters: [null] when the parameter is missing. *)
Definition readQueryString (location : gmap string string) (key : string)
  : value :=
  of_nullable (location !! key).

(** A query-string value as the HTTP client receives it. *)
Inductive scalar :=
| SNum (n : number)
| SStr (s : string).

Definition query_value (key : string) (v : value) : list (string * scalar) :=
  match v with
  | Str s => [(key, SStr s)]
  | Undefined | Null => []
  end.

(** Modelled from the spec: the query-string serialisation of the HTTP
    client, which is not part of the sources.  Each property of the object
    given to [query] becomes one parameter, in the order of the properties;
    a property whose value is [undefined] or [null] is left out
    ("if none exists, both remain undefined and no sort parameter is sent"),
    and a string is sent as it is, the empty string included. *)
Definition serialize (p : RequestParams) : list (string * scalar) :=
  [("page", SNum (page p)); ("rowCount", SNum (rowCount p))]
  ++ query_value "sortColumn" (sortColumn p)
  ++ query_value "sortDirection" (sortDirection p)
  ++ match search p with
     | Some s => [("search", SStr s)]
     | None => []
     end.

(** [JSON.parse(JSON.stringify(params))]: a property whose value is
    [undefined] is dropped, a number that is not finite becomes [null]. *)
Definition json_of_number (n : number) : json :=
  match n with
  | Num z => JNum z
  | _ => JNull
  end.

Definition json_of_value (key : string) (v : value) : list (string * json) :=
  match v with
  | Undefined => []
  | Null => [(key, JNull)]
  | Str s => [(key, JStr s)]
  end.

Definition json_copy (p : RequestParams) : list (string * json) :=
  [("page", json_of_number (page p));
   ("rowCount", json_of_number (rowCount p))]
  ++ json_of_value "sortColumn" (sortColumn p)
  ++ json_of_value "sortDirection" (sortDirection p)
  ++ match search p with
     | Some s => [("search", JStr s)]
     | None => []
     end.

(** *** Methods that read the page ([loadRequestParams] and its getters) *)

Definition getPageNumber (location : gmap string string) : number :=
  match readQueryString location "page" with
  | Null => DEFAULT_PAGE
  | page => parseInt_value page
  end.

Definition getRowCount (location : gmap string string) : number :=
  match readQueryString location "rowCount" with
  | Null => DEFAULT_ROWS
  | rowCount => parseInt_value rowCount
  end.

Definition getSortDirection (location : gmap string string)
    (component : Component) : value :=
  match readQueryString location "sortDirection" with
  | Null =>
      match querySelector_th_data_sort (header_cells component) with
      | Some (_, th) => of_nullable (data_sort th)
      | None => Undefined
      end
  | sortDirection => sortDirection
  end.

Definition getSortColumn (location : gmap string string)
    (component : Component) : value :=
  match readQueryString location "sortColumn" with
  | Null =>
      match querySelector_th_data_sort (header_cells component) with
      | Some (_, th) => of_nullable (data_column th)
      | None => Undefined
      end
  | sortColumn => sortColumn
  end.

Definition getSearchTerm (location : gmap string string) : value :=
  readQueryString location "search".

Definition loadRequestParams (location : gmap string string)
    (component : Component) : RequestParams :=
  let params :=
    mkRequestParams (getPageNumber location) (getRowCount location)
      (getSortColumn location component)
      (getSortDirection location component) None in
  let search := getSearchTerm location in
  if truthy search then set_search (to_string search) params else params.

Definition loadSrc (component : Component) : value :=
  of_nullable (data_src component).

(** *** Methods on the built object *)

(** The table body is replaced by one placeholder row that spans the
    header cells (its height, a layout quantity, is left out). *)
Definition showLoadingOverlay (that : Datagrid) : Datagrid :=
  set_tbody (TbodyLoading (length (ths that))) that.

(** The request is issued with the parameters as they are at the call; the
    response arrives later, as an event. *)
Definition loadData (that : Datagrid) : Datagrid :=
  log_request (mkGet (src that) (requestParams that)) that.

Definition parseRows (context : body_read) (that : Datagrid) : Datagrid :=
  set_tbody (TbodyRows context) that.

Definition setSortHeaders (that : Datagrid) : outcome :=
  let that := set_ths (removeAttribute_data_sort <$> ths that) that in
  let column := to_string (sortColumn (requestParams that)) in
  match querySelector_th_data_column column (ths that) with
  | SyntaxError => Threw DOMSyntaxError that
  | Selected None => Done that
  | Selected (Some i) =>
      let direction := to_string (sortDirection (requestParams that)) in
      Done (set_ths (alter (setAttribute_data_sort direction) i (ths that)) that)
  end.

(** The arguments of the three chained setters are evaluated in turn:
    [setPage] has run when reading [this.data.body.total] raises. *)
Definition parsePagination (that : Datagrid) : outcome :=
  let that := set_pagination (setPage (page (requestParams that)) (pagination that)) that in
  match read_body <$> data that with
  | Some (ReadBody b) =>
      let count := round_div (total b) (body_rowCount b) in
      let copy := json_copy (requestParams that) in
      let that :=
        set_pagination
          (setRequestParams copy (setPageCount count (pagination that))) that in
      Done (set_toolbarFooter (pagination that) that)
  | _ => Threw TypeError that
  end.

Definition parseSearchbar (that : Datagrid) : Datagrid :=
  match search (requestParams that) with
  | Some s => if String.eqb s "" then that else set_searchTerm s that
  | None => that
  end.

(** *** Event handlers *)

(** The object a listener runs on.  The emitter calls a listener with
    itself as [this]; [that] is the component, captured by the closure. *)
Inductive Receiver :=
| TheEmitter
| TheDatagrid.

(** A property read that yields a boolean or nothing. *)
Inductive flag :=
| FlagUndefined
| FlagBool (b : bool).

Definition flag_truthy (f : flag) : bool :=
  match f with
  | FlagUndefined => false
  | FlagBool b => b
  end.

(** [this.firstLoad]: the emitter has no property of that name. *)
Definition get_firstLoad (this : Receiver) (that : Datagrid) : flag :=
  match this with
  | TheEmitter => FlagUndefined
  | TheDatagrid => FlagBool (firstLoad that)
  end.

(** Listener of [data-ready]. *)
Definition on_data_ready (this : Receiver) (data : Payload) (that : Datagrid)
  : outcome :=
  let that := set_data data that in
  match read_body data with
  | ReadRaises => Threw TypeError that
  | context =>
      parsePagination (parseRows context that) >>> λ that,
      if flag_truthy (get_firstLoad this that)
      then Done (log_history (HistoryReplace (requestParams that)) that)
      else Done (log_history (HistoryPush (requestParams that)) that)
  end.

(** [that.emitter.emit('data-ready', data)]. *)
Definition emit_data_ready (data : Payload) (that : Datagrid) : outcome :=
  on_data_ready TheEmitter data that.

(** Listener of [sort-request]; [el] is the clicked header cell as it is
    when the listener starts. *)
Definition on_sort_request (el : Th) (that : Datagrid) : outcome :=
  let that := showLoadingOverlay that in
  let sortColumn := of_nullable (data_column el) in
  let sortDirection :=
    match of_nullable (data_sort el) with
    | Null => Str DEFAULT_SORT
    | sortDirection => replacementSorts_get (to_string sortDirection)
    end in
  let that :=
    set_requestParams (set_sortColumn sortColumn (requestParams that)) that in
  let that :=
    set_requestParams (set_sortDirection sortDirection (requestParams that)) that in
  setSortHeaders that >>> λ that,
  Done (loadData that).

(** [th.onclick], installed by [wrapHeaders] on every header cell: emits
    [sort-request] with the cell. *)
Definition th_onclick (i : nat) (that : Datagrid) : outcome :=
  match ths that !! i with
  | Some el => on_sort_request el that
  | None => Done that
  end.

(** Listener of [pagination-request]; [data_page] is the [data-page]
    attribute of the clicked link. *)
Definition on_pagination_request (data_page : option string) (that : Datagrid)
  : outcome :=
  let that := showLoadingOverlay that in
  let page := of_nullable data_page in
  let that :=
    set_requestParams (set_page (parseInt_value page) (requestParams that)) that in
  Done (loadData that).

(** Listener of [search-request]; [value] is the [value] of the submitted
    search. *)
Definition on_search_request (value : string) (that : Datagrid) : outcome :=
  let that := showLoadingOverlay that in
  let that := set_requestParams (set_page (Num 1) (requestParams that)) that in
  let that := set_requestParams (set_search value (requestParams that)) that in
  Done (loadData that).

(** The callback given to [end] in [loadData]: [error] is [null] or the
    error object, [response] is [undefined] or the response. *)
Definition payload_of (response : option Response) : Payload :=
  match response with
  | Some r => GotResponse r
  | None => NoResponse
  end.

Definition loadData_end (error : option Error) (response : option Response)
    (that : Datagrid) : outcome :=
  emit_data_ready (payload_of response) that.

(** *** The constructor

    The fields are set, [requestParams] from the page; the listeners are
    registered; then the toolbars are added and the search bar is rendered
    ([appendToolbars] and the rendering touch nothing that is modelled), the
    header cells get their click handlers ([wrapHeaders], which keeps their
    attributes), the loading row is shown, the header of the sorted column
    is marked and the first request is issued. *)

Definition new_Pagination : Pagination := mkPagination None None None.

Definition new (location : gmap string string) (component : Component)
  : outcome :=
  let that :=
    mkDatagrid true None new_Pagination None (header_cells component)
      TbodyMarkup None (loadSrc component)
      (loadRequestParams location component) [] [] in
  let that := parseSearchbar that in
  let that := showLoadingOverlay that in
  setSortHeaders that >>> λ that,
  Done (loadData that).

(** *** Runs

    What happens to a component after its construction: header clicks,
    pagination clicks, search submissions and completions of requests, in
    any order.  An exception raised by a listener ends that listener only;
    the component stays as the listener left it. *)
Inductive event :=
| HeaderClick (i : nat)
| PaginationClick (data_page : option string)
| SearchSubmit (value : string)
| RequestEnd (error : option Error) (response : option Response).

Definition handle (ev : event) (that : Datagrid) : outcome :=
  match ev with
  | HeaderClick i => th_onclick i that
  | PaginationClick data_page => on_pagination_request data_page that
  | SearchSubmit value => on_search_request value that
  | RequestEnd error response => loadData_end error response that
  end.

Definition step (that : Datagrid) (ev : event) : Datagrid :=
  state_of (handle ev that).

Definition run (evs : list event) (that : Datagrid) : Datagrid :=
  foldl step that evs.

(** The states a component goes through on a page. *)
Definition reachable (location : gmap string string) (component : Component)
    (that : Datagrid) : Prop :=
  ∃ evs, that = run evs (state_of (new location component)).

End Datagrid.

Import Datagrid.

(** ** Example pages and responses *)

Module Examples.

(** A table whose [id] column is flagged as the default sort. *)
Definition users_table : Component :=
  mkComponent (Some "/users.json")
    [mkTh (Some "id") (Some "desc"); mkTh (Some "name") None].

(** A table with no default sort. *)
Definition plain_table : Component :=
  mkComponent (Some "/users.json")
    [mkTh (Some "id") None; mkTh (Some "name") None].

Definition page_of (rowCount total : Z) : Response :=
  mkResponse (Some (mkBody (Some 1%Z) (Some rowCount) (Some total) [])).

Definition network_error : Error := mkError "Network Error".

(** The component on [users_table], opened with no query string. *)
Definition users_grid : Datagrid := state_of (new ∅ users_table).

End Examples.

Import Examples.

(** ** Vocabulary of the properties *)

Section Vocabulary.

Implicit Types (that : Datagrid) (th el : Th) (ev : event).

(** A call of [history.push]. *)
Definition is_push (h : HistoryCall) : Prop :=
  match h with
  | HistoryPush _ => True
  | HistoryReplace _ => False
  end.

(** [n] is the integer nearest to [t / r] for a positive [r], the larger
    one when two are as near: [n - 1/2 <= t / r < n + 1/2]. *)
Definition nearest_integer (t r n : Z) : Prop :=
  (r * (2 * n - 1) ≤ 2 * t ∧ 2 * t < r * (2 * n + 1))%Z.

(** The sort direction a header cell shows. *)
Definition shown_direction (i : nat) (that : Datagrid) : option string :=
  ths that !! i ≫= data_sort.

(** The direction a [sort-request] on a cell asks for. *)
Definition requested_direction (el : Th) : value :=
  match of_nullable (data_sort el) with
  | Null => Str DEFAULT_SORT
  | sortDirection => replacementSorts_get (to_string sortDirection)
  end.

(** The header cell flagged as the default sort: the first one that
    carries a [data-sort] attribute. *)
Definition default_sort_header (component : Component) (i : nat) (th : Th)
  : Prop :=
  header_cells component !! i = Some th
  ∧ is_Some (data_sort th)
  ∧ ∀ j th', header_cells component !! j = Some th' → j < i →
             data_sort th' = None.

Definition no_default_sort (component : Component) : Prop :=
  Forall (λ th, data_sort th = None) (header_cells component).









(** A completion of a request that carries a response with a JSON body: a
    successful load. *)
Definition is_load (ev : event) : bool :=
  match ev with
  | RequestEnd _ (Some r) =>
      match body r with
      | Some _ => true
      | None => false
      end
  | _ => false
  end.

(** The events that come from the user: clicks and search submissions. *)
Definition is_trigger (ev : event) : bool :=
  match ev with
  | RequestEnd _ _ => false
  | _ => true
  end.

(** At most one cell of a row of header cells carries [data-sort]. *)
Definition one_sorted (l : list Th) : Prop :=
  ∀ i j a b,
    l !! i = Some a → l !! j = Some b →
    is_Some (data_sort a) → is_Some (data_sort b) → i = j.

(** The decimal numeral of a natural number, as a page link carries it. *)
Definition decimal (n : nat) : string :=
  NilEmpty.string_of_uint (Nat.to_uint n).

End Vocabulary.

(** ** Frame properties of the methods *)

Section Frames.

Implicit Types (that : Datagrid) (ev : event).

(** [setSortHeaders] changes the header cells and nothing else, whether it
    returns or raises. *)
Lemma setSortHeaders_changes_ths that :
  ∃ l, setSortHeaders that = Done (set_ths l that)
       ∨ setSortHeaders that = Threw DOMSyntaxError (set_ths l that).
Proof.
  unfold setSortHeaders; cbn.
  destruct (querySelector_th_data_column _ _) as [|[i|]];
    eexists; (by left) || (by right).
Qed.

Lemma parseSearchbar_changes_searchTerm that :
  parseSearchbar that = that
  ∨ ∃ s, parseSearchbar that = set_searchTerm s that.
Proof.
  unfold parseSearchbar.
  destruct (search (requestParams that)) as [s|]; [|by left].
  destruct (String.eqb s ""); [by left|right; by exists s].
Qed.

End Frames.

(** Case analysis on the calls of [setSortHeaders] and [parseSearchbar] that
    occur in the goal. *)
Ltac case_setSortHeaders :=
  match goal with
  | |- context [setSortHeaders ?t] =>
      let l := fresh "l" in
      destruct (setSortHeaders_changes_ths t) as [l [-> | ->]]
  end.

Ltac case_parseSearchbar :=
  match goal with
  | |- context [parseSearchbar ?t] =>
      let s := fresh "s" in
      destruct (parseSearchbar_changes_searchTerm t) as [-> | [s ->]]
  end.

(** ** The component as built *)

Section Fresh.

Lemma new_requestParams location component :
  requestParams (state_of (new location component))
  = loadRequestParams location component.
Proof.
  unfold new. case_setSortHeaders; case_parseSearchbar; reflexivity.
Qed.

Lemma new_history location component :
  history (state_of (new location component)) = [].
Proof.
  unfold new. case_setSortHeaders; case_parseSearchbar; reflexivity.
Qed.

End Fresh.

(** ** History synchronisation *)

Section History.

Implicit Types (that : Datagrid) (ev : event).

(** A successful load handled by the listener as the emitter runs it. *)
Lemma data_ready_pushes b that :
  emit_data_ready (GotResponse (mkResponse (Some b))) that
  = Done (log_history (HistoryPush (requestParams that))
            (state_of (parsePagination
               (parseRows (ReadBody b)
                  (set_data (GotResponse (mkResponse (Some b))) that))))).
Proof. reflexivity. Qed.

(** No listener writes [firstLoad]. *)
Lemma firstLoad_step that ev : firstLoad (step that ev) = firstLoad that.
Proof.
  destruct ev as [i|dp|v|error [[[b|]]|]]; try reflexivity.
  unfold step, handle, th_onclick.
  destruct (ths that !! i) as [el|]; [|reflexivity].
  unfold on_sort_request.
  case_setSortHeaders; reflexivity.
Qed.

Lemma firstLoad_run evs that : firstLoad (run evs that) = firstLoad that.
Proof.
  revert that; induction evs as [|ev evs IH]; intros that; [reflexivity|].
  cbn. unfold run in IH. rewrite IH. apply firstLoad_step.
Qed.

(** One event adds at most one call on the history module, and that call
    is a push. *)
Lemma history_step that ev :
  history (step that ev) = history that
  ∨ ∃ p, history (step that ev) = HistoryPush p :: history that.
Proof.
  destruct ev as [i|dp|v|error [[[b|]]|]];
    try (left; reflexivity); [|right; eexists; reflexivity].
  left. unfold step, handle, th_onclick.
  destruct (ths that !! i) as [el|]; [|reflexivity].
  unfold on_sort_request.
  case_setSortHeaders; reflexivity.
Qed.

Lemma history_run_pushes evs that :
  Forall is_push (history that) → Forall is_push (history (run evs that)).
Proof.
  revert that; induction evs as [|ev evs IH]; intros that H; [exact H|].
  cbn. apply IH.
  destruct (history_step that ev) as [-> | [p ->]]; [exact H|].
  constructor; [exact I | exact H].
Qed.

(** In no run does the component ever call [history.replace]. *)
Lemma history_never_replaces location component that :
  reachable location component that → Forall is_push (history that).
Proof.
  intros [evs ->]. apply history_run_pushes.
  rewrite new_history. constructor.
Qed.

(** Had the listener run on the component itself, every successful load
    would replace, the first one and all later ones: [firstLoad] stays
    [true]. *)
Lemma data_ready_on_component_replaces evs b that :
  firstLoad that = true →
  ∃ that',
    on_data_ready TheDatagrid (GotResponse (mkResponse (Some b)))
      (run evs that) = Done that'
    ∧ ∃ p, history that' = HistoryReplace p :: history (run evs that).
Proof.
  intros Hfirst. pose proof (firstLoad_run evs that) as Hrun.
  rewrite Hfirst in Hrun.
  unfold on_data_ready; cbn. rewrite Hrun; cbn.
  eexists; split; [reflexivity|]. eexists; reflexivity.
Qed.

(** C1 (the code departs from the claim): the first successful load of a
    component, whatever the page it is built on and whatever the response,
    is recorded with [history.push]; [history.replace] is not called.  The
    listener reads [firstLoad] off the emitter, which has no such
    property. *)
Theorem first_successful_load_pushes location component error b :
  history (step (state_of (new location component))
             (RequestEnd error (Some (mkResponse (Some b)))))
  = [HistoryPush (loadRequestParams location component)].
Proof.
  unfold step, handle, loadData_end, payload_of.
  rewrite data_ready_pushes. cbn.
  rewrite new_requestParams, new_history. reflexivity.
Qed.

End History.

(** ** The search form *)

Section Search.

Implicit Types (that : Datagrid).

(** C4: whatever the current page and search term, the listener of
    [search-request] shows the loading row, sets [page] to 1 and [search]
    to the submitted term, leaves the other parameters as they were, and
    issues one request carrying the new parameters. *)
Theorem search_request_resets_page that term :
  ∃ that',
    handle (SearchSubmit term) that = Done that'
    ∧ page (requestParams that') = Num 1
    ∧ search (requestParams that') = Some term
    ∧ rowCount (requestParams that') = rowCount (requestParams that)
    ∧ sortColumn (requestParams that') = sortColumn (requestParams that)
    ∧ sortDirection (requestParams that') = sortDirection (requestParams that)
    ∧ tbody that' = TbodyLoading (length (ths that))
    ∧ requests that' = mkGet (src that) (requestParams that') :: requests that.
Proof. eexists; repeat split. Qed.

(** At construction, a search term that is missing from the query string
    or empty gives the parameters no [search] property. *)
Lemma loadRequestParams_search location component :
  search (loadRequestParams location component)
  = match location !! "search" with
    | Some s => if String.eqb s "" then None else Some s
    | None => None
    end.
Proof.
  unfold loadRequestParams, getSearchTerm, readQueryString.
  destruct (location !! "search") as [s|]; cbn; [|reflexivity].
  destruct (String.eqb s ""); reflexivity.
Qed.

(** C8 (the code departs from the claim): submitting the empty search term
    stores the empty string in the parameters; the request that follows is
    given a [search] property equal to the empty string, which is
    serialised as an empty [search] parameter. *)
Theorem empty_search_is_sent that :
  ∃ that' g,
    handle (SearchSubmit "") that = Done that'
    ∧ head (requests that') = Some g
    ∧ search (get_query g) = Some ""
    ∧ ("search", SStr "") ∈ serialize (get_query g).
Proof.
  eexists _, _; repeat split.
  cbn. do 2 apply list_elem_of_further.
  rewrite !elem_of_app. right; right. apply list_elem_of_here.
Qed.

End Search.

(** ** Arithmetic of the page count *)

Section Doubles.

Local Open Scope Z_scope.

(** Rounding to the nearest integer moves up by less than one, and not at
    all below the half. *)
Lemma div_rne_bounds a b :
  0 <= a -> 0 < b ->
  a / b <= div_rne a b <= a / b + 1
  /\ (2 * (a mod b) < b -> div_rne a b = a / b).
Proof.
  intros Ha Hb. unfold div_rne.
  destruct (Z.ltb_spec (2 * (a mod b)) b); [lia|].
  split; [|lia].
  destruct (Z.ltb_spec b (2 * (a mod b))); [lia|].
  destruct (Z.even (a / b)); lia.
Qed.

Lemma div_rne_1 a : div_rne a 1 = a.
Proof.
  unfold div_rne. rewrite Z.div_1_r, Z.mod_1_r. reflexivity.
Qed.

(** The rounded significand of [t / r], scaled by [2 * H] with [r < 2 * H],
    stays in the window of the integer nearest to [t / r]: the rounding of
    the division does not reach the next half. *)
Lemma rne_window t r C H :
  0 <= t -> 0 < r -> 0 < C -> 0 < H -> r < 2 * H ->
  let n := (2 * t + r) / (2 * r) in
  let m := div_rne (t * C * (2 * H)) (r * C) in
  (2 * n - 1) * H <= m <= (2 * n + 1) * H - 1.
Proof.
  intros Ht Hr HC HH HrH n m.
  pose proof (Z.div_mod (2 * t + r) (2 * r) ltac:(lia)) as Hn.
  pose proof (Z.mod_pos_bound (2 * t + r) (2 * r) ltac:(lia)) as Hn'.
  fold n in Hn.
  assert (Hlo : r * (2 * n - 1) <= 2 * t) by nia.
  assert (Hhi : 2 * t < r * (2 * n + 1)) by nia.
  set (a := t * C * (2 * H)) in *. set (b := r * C) in *.
  assert (Hb : 0 < b) by (unfold b; nia).
  assert (Ha : 0 <= a) by (unfold a; nia).
  pose proof (Z.div_mod a b ltac:(lia)) as Hq.
  pose proof (Z.mod_pos_bound a b Hb) as Hq'.
  destruct (div_rne_bounds a b Ha Hb) as [[Hm1 Hm2] Hm3]. fold m in Hm1, Hm2, Hm3.
  assert (HL : (2 * n - 1) * H * b <= a).
  { unfold a, b.
    replace ((2 * n - 1) * H * (r * C)) with ((r * (2 * n - 1)) * (H * C)) by ring.
    replace (t * C * (2 * H)) with ((2 * t) * (H * C)) by ring.
    apply Z.mul_le_mono_nonneg_r; nia. }
  assert (HU : a < (2 * n + 1) * H * b).
  { unfold a, b.
    replace ((2 * n + 1) * H * (r * C)) with ((r * (2 * n + 1)) * (H * C)) by ring.
    replace (t * C * (2 * H)) with ((2 * t) * (H * C)) by ring.
    apply Z.mul_lt_mono_pos_r; nia. }
  assert (Hq1 : (2 * n - 1) * H <= a / b).
  { apply Z.div_le_lower_bound; lia. }
  assert (Hq2 : a / b < (2 * n + 1) * H).
  { apply Z.div_lt_upper_bound; lia. }
  split; [lia|].
  destruct (Z.eq_dec (a / b) ((2 * n + 1) * H - 1)) as [Heq|Hne]; [|lia].
  rewrite Hm3; [lia|].
  (* 2 (a - q b) < b *)
  assert (Hgap : 1 <= r * (2 * n + 1) - 2 * t) by lia.
  assert (2 * a + b < 2 * ((2 * n + 1) * H) * b).
  { unfold a, b.
    replace (2 * (t * C * (2 * H)) + r * C) with ((4 * t * H + r) * C) by ring.
    replace (2 * ((2 * n + 1) * H) * (r * C)) with ((2 * H * (r * (2 * n + 1))) * C) by ring.
    apply Z.mul_lt_mono_pos_r; [lia|]. nia. }
  rewrite Heq in Hq. nia.
Qed.

Lemma rne_round t r C H :
  0 <= t -> 0 < r -> 0 < C -> 0 < H -> r < 2 * H ->
  (2 * div_rne (t * C * (2 * H)) (r * C) + 2 * H) / (2 * (2 * H))
  = (2 * t + r) / (2 * r).
Proof.
  intros Ht Hr HC HH HrH.
  pose proof (rne_window t r C H Ht Hr HC HH HrH) as Hw. cbn zeta in Hw.
  set (n := (2 * t + r) / (2 * r)) in *.
  set (m := div_rne _ _) in *.
  symmetry. apply (Z.div_unique _ _ _ (2 * m + 2 * H - n * (2 * (2 * H)))); nia.
Qed.

Lemma pow2_pos k : 0 <= k -> 0 < 2 ^ k.
Proof. intros. apply Z.pow_pos_nonneg; lia. Qed.

(** The same window for a negative quotient [- a / r]. *)
Lemma rne_window_neg a r C H :
  0 < a -> 0 < r -> 0 < C -> 0 < H -> r < 2 * H ->
  let n := (2 * - a + r) / (2 * r) in
  let m := div_rne (a * C * (2 * H)) (r * C) in
  (- (2 * n) - 1) * H + 1 <= m <= (- (2 * n) + 1) * H.
Proof.
  intros Ha Hr HC HH HrH n m.
  pose proof (Z.div_mod (2 * - a + r) (2 * r) ltac:(lia)) as Hn.
  pose proof (Z.mod_pos_bound (2 * - a + r) (2 * r) ltac:(lia)) as Hn'.
  fold n in Hn.
  (* r (2n - 1) <= -2a < r (2n + 1), i.e. r(-2n-1) < 2a <= r(-2n+1) *)
  assert (Hlo : r * (- (2 * n) - 1) < 2 * a) by nia.
  assert (Hhi : 2 * a <= r * (- (2 * n) + 1)) by nia.
  set (p := a * C * (2 * H)) in *. set (b := r * C) in *.
  assert (Hb : 0 < b) by (unfold b; nia).
  assert (Hp : 0 <= p) by (unfold p; nia).
  pose proof (Z.div_mod p b ltac:(lia)) as Hq.
  pose proof (Z.mod_pos_bound p b Hb) as Hq'.
  destruct (div_rne_bounds p b Hp Hb) as [[Hm1 Hm2] Hm3].
  fold m in Hm1, Hm2, Hm3.
  assert (HL : (- (2 * n) - 1) * H * b < p).
  { unfold p, b.
    replace ((- (2 * n) - 1) * H * (r * C)) with ((r * (- (2 * n) - 1)) * (H * C)) by ring.
    replace (a * C * (2 * H)) with ((2 * a) * (H * C)) by ring.
    apply Z.mul_lt_mono_pos_r; nia. }
  assert (HU : p <= (- (2 * n) + 1) * H * b).
  { unfold p, b.
    replace ((- (2 * n) + 1) * H * (r * C)) with ((r * (- (2 * n) + 1)) * (H * C)) by ring.
    replace (a * C * (2 * H)) with ((2 * a) * (H * C)) by ring.
    apply Z.mul_le_mono_nonneg_r; nia. }
  (* upper: m <= U *)
  assert (Hq2 : p / b <= (- (2 * n) + 1) * H).
  { apply Z.div_le_upper_bound; lia. }
  assert (Hq1 : (- (2 * n) - 1) * H <= p / b).
  { apply Z.div_le_lower_bound; lia. }
  split.
  - (* lower: strict, from the gap *)
    destruct (Z.eq_dec (p / b) ((- (2 * n) - 1) * H)) as [Heq|Hne]; [|lia].
    (* then the remainder is more than half: m = q + 1 *)
    assert (Hrem : b < 2 * (p mod b)).
    { assert (Hgap : 1 <= 2 * a - r * (- (2 * n) - 1)) by lia.
      assert (2 * ((- (2 * n) - 1) * H) * b + b < 2 * p).
      { unfold p, b.
        replace (2 * ((- (2 * n) - 1) * H) * (r * C) + r * C)
          with ((2 * H * (r * (- (2 * n) - 1)) + r) * C) by ring.
        replace (2 * (a * C * (2 * H))) with ((4 * a * H) * C) by ring.
        apply Z.mul_lt_mono_pos_r; [lia|]. nia. }
      rewrite Heq in Hq. nia. }
    unfold m, div_rne. fold p b.
    destruct (Z.ltb_spec (2 * (p mod b)) b); [lia|].
    destruct (Z.ltb_spec b (2 * (p mod b))); lia.
  - destruct (Z.eq_dec (p / b) ((- (2 * n) + 1) * H)) as [Heq|Hne]; [|lia].
    rewrite Hm3; [lia|].
    rewrite Heq in Hq. nia.
Qed.

Lemma rne_round_neg a r C H :
  0 < a -> 0 < r -> 0 < C -> 0 < H -> r < 2 * H ->
  (2 * - div_rne (a * C * (2 * H)) (r * C) + 2 * H) / (2 * (2 * H))
  = (2 * - a + r) / (2 * r).
Proof.
  intros Ha Hr HC HH HrH.
  pose proof (rne_window_neg a r C H Ha Hr HC HH HrH) as Hw. cbn zeta in Hw.
  set (n := (2 * - a + r) / (2 * r)) in *.
  set (m := div_rne _ _) in *.
  symmetry. apply (Z.div_unique _ _ _ (2 * - m + 2 * H - n * (2 * (2 * H)))); nia.
Qed.

(** The leading bit of a quotient. *)
Lemma quot_log2_spec num den :
  0 < num -> 0 < den ->
  let k := quot_log2 num den in
  den * 2 ^ Z.max k 0 <= num * 2 ^ Z.max (- k) 0
  /\ Z.log2 num - Z.log2 den - 1 <= k <= Z.log2 num - Z.log2 den.
Proof.
  intros Hn Hd. unfold quot_log2.
  set (k0 := Z.log2 num - Z.log2 den).
  destruct (Z.leb_spec (den * 2 ^ Z.max k0 0) (num * 2 ^ Z.max (- k0) 0)) as [H|H];
    cbn zeta; [split; [exact H | lia]|].
  split; [|lia].
  pose proof (Z.log2_spec num Hn) as [Hn1 Hn2].
  pose proof (Z.log2_spec den Hd) as [Hd1 Hd2].
  pose proof (Z.log2_nonneg num). pose proof (Z.log2_nonneg den).
  destruct (Z.le_gt_cases 1 k0) as [Hk|Hk].
  - rewrite (Z.max_l (k0 - 1) 0), (Z.max_r (- (k0 - 1)) 0) by lia.
    rewrite Z.pow_0_r, Z.mul_1_r.
    apply Z.le_trans with (2 ^ Z.log2 num); [|lia].
    replace (Z.log2 num) with (Z.succ (Z.log2 den) + (k0 - 1)) by (unfold k0; lia).
    rewrite Z.pow_add_r by lia.
    pose proof (pow2_pos (k0 - 1) ltac:(lia)). nia.
  - rewrite (Z.max_r (k0 - 1) 0), (Z.max_l (- (k0 - 1)) 0) by lia.
    rewrite Z.pow_0_r, Z.mul_1_r.
    apply Z.le_trans with (2 ^ Z.log2 num * 2 ^ (- (k0 - 1))).
    + rewrite <- Z.pow_add_r by lia.
      replace (Z.log2 num + - (k0 - 1)) with (Z.succ (Z.log2 den)) by (unfold k0; lia).
      lia.
    + pose proof (pow2_pos (- (k0 - 1)) ltac:(lia)). nia.
Qed.

(** An integer below [2^52] is read as itself. *)
Lemma round_double_small s z :
  0 < z < 2 ^ 52 ->
  round_double s z 1 = DFin s (z * 2 ^ (52 - Z.log2 z)) (Z.log2 z - 52).
Proof.
  intros [Hz1 Hz2].
  pose proof (Z.log2_nonneg z) as Hl0.
  pose proof (proj1 (Z.log2_lt_pow2 z 52 Hz1) Hz2) as Hl1.
  pose proof (Z.log2_spec z Hz1) as [Hs1 Hs2].
  unfold round_double.
  destruct (Z.eqb_spec z 0) as [|_]; [lia|].
  assert (Hk : quot_log2 z 1 = Z.log2 z).
  { unfold quot_log2. change (Z.log2 1) with 0. rewrite Z.sub_0_r.
    rewrite Z.max_l, Z.max_r by lia. rewrite Z.pow_0_r.
    destruct (Z.leb_spec (1 * 2 ^ Z.log2 z) (z * 1)); lia. }
  rewrite Hk.
  rewrite (Z.max_l (Z.log2 z - 52) (-1074)) by lia.
  rewrite (Z.max_l (- (Z.log2 z - 52)) 0), (Z.max_r (Z.log2 z - 52) 0) by lia.
  change (1 * 2 ^ 0) with 1. change (2 ^ 0) with 1.
  rewrite div_rne_1, Z.mul_1_r.
  replace (- (Z.log2 z - 52)) with (52 - Z.log2 z) by lia.
  assert (Hm : z * 2 ^ (52 - Z.log2 z) < 2 ^ 53).
  { replace 53 with (Z.succ (Z.log2 z) + (52 - Z.log2 z)) by lia.
    rewrite Z.pow_add_r by lia.
    apply Z.mul_lt_mono_pos_r; [apply pow2_pos; lia | lia]. }
  assert (H53 : 2 ^ 53 < 2 ^ 1024) by (apply Z.pow_lt_mono_r; lia).
  destruct (Z.leb_spec (2 ^ 1024) (z * 2 ^ (52 - Z.log2 z))); [lia|reflexivity].
Qed.

Lemma to_double_small z :
  0 < Z.abs z < 2 ^ 52 ->
  to_double z
  = DFin (z <? 0) (Z.abs z * 2 ^ (52 - Z.log2 (Z.abs z)))
      (Z.log2 (Z.abs z) - 52).
Proof. intros Hz. unfold to_double. apply round_double_small; exact Hz. Qed.

(** The quotient of two small integers, as a double: a significand that is
    the rounded quotient scaled by [2 * H], with [r < 2 * H]. *)
Lemma div_double_small s a r :
  0 < a -> 0 < r -> a + r < 2 ^ 52 ->
  exists C H k,
    0 < C /\ 0 < H /\ r < 2 * H /\ k < 52 /\ 2 ^ (52 - k) = 2 * H
    /\ div_double
         (DFin s (a * 2 ^ (52 - Z.log2 a)) (Z.log2 a - 52))
         (DFin false (r * 2 ^ (52 - Z.log2 r)) (Z.log2 r - 52))
       = DFin s (div_rne (a * C * (2 * H)) (r * C)) (k - 52).
Proof.
  intros Ha Hr Hsum.
  pose proof (Z.log2_nonneg r) as Hlr0.
  pose proof (proj1 (Z.log2_lt_pow2 r 52 Hr) ltac:(lia)) as Hlr1.
  pose proof (Z.log2_nonneg a) as Hla0.
  pose proof (proj1 (Z.log2_lt_pow2 a 52 Ha) ltac:(lia)) as Hla1.
  assert (Hmr : 0 < r * 2 ^ (52 - Z.log2 r)).
  { apply Z.mul_pos_pos; [lia | apply pow2_pos; lia]. }
  unfold div_double.
  destruct (Z.eqb_spec (r * 2 ^ (52 - Z.log2 r)) 0) as [|_]; [lia|].
  rewrite xorb_false_r.
  set (c := Z.min (Z.log2 a - 52) (Z.log2 r - 52)).
  assert (Hc : - 52 <= c <= - 1) by (unfold c; lia).
  assert (Hnum : a * 2 ^ (52 - Z.log2 a) * 2 ^ (Z.log2 a - 52 - c) = a * 2 ^ (- c)).
  { rewrite <- Z.mul_assoc, <- Z.pow_add_r by lia. f_equal; f_equal; lia. }
  assert (Hden : r * 2 ^ (52 - Z.log2 r) * 2 ^ (Z.log2 r - 52 - c) = r * 2 ^ (- c)).
  { rewrite <- Z.mul_assoc, <- Z.pow_add_r by lia. f_equal; f_equal; lia. }
  rewrite Hnum, Hden. clear Hnum Hden.
  set (C := 2 ^ (- c)).
  assert (HC : 0 < C) by (apply pow2_pos; lia).
  unfold round_double.
  destruct (Z.eqb_spec (a * C) 0) as [|_]; [nia|].
  destruct (quot_log2_spec (a * C) (r * C) ltac:(nia) ltac:(nia)) as [Hlow Hk].
  set (k := quot_log2 (a * C) (r * C)) in *.
  assert (HlogA : Z.log2 (a * C) = - c + Z.log2 a)
    by (unfold C; apply Z.log2_mul_pow2; lia).
  assert (HlogR : Z.log2 (r * C) = - c + Z.log2 r)
    by (unfold C; apply Z.log2_mul_pow2; lia).
  rewrite HlogA, HlogR in Hk.
  rewrite (Z.max_l (k - 52) (-1074)) by lia.
  rewrite (Z.max_l (- (k - 52)) 0), (Z.max_r (k - 52) 0) by lia.
  rewrite Z.pow_0_r, !Z.mul_1_r.
  replace (- (k - 52)) with (52 - k) by lia.
  set (H := 2 ^ (52 - k - 1)).
  assert (HH : 0 < H) by (apply pow2_pos; lia).
  assert (H2s : 2 ^ (52 - k) = 2 * H).
  { unfold H. replace (52 - k) with (1 + (52 - k - 1)) at 1 by lia.
    rewrite Z.pow_add_r by lia. reflexivity. }
  rewrite H2s.
  assert (HrH : r < 2 * H).
  { rewrite <- H2s.
    destruct (Z.le_gt_cases 0 k) as [Hk0|Hk0].
    - rewrite (Z.max_l k 0), (Z.max_r (- k) 0) in Hlow by lia.
      rewrite Z.pow_0_r, Z.mul_1_r in Hlow.
      assert (r * 2 ^ k <= a).
      { apply (Z.mul_le_mono_pos_r _ _ C HC).
        replace (r * 2 ^ k * C) with (r * C * 2 ^ k) by ring. exact Hlow. }
      assert (2 ^ 52 = 2 ^ (52 - k) * 2 ^ k).
      { rewrite <- Z.pow_add_r by lia. f_equal; lia. }
      pose proof (pow2_pos k Hk0). nia.
    - rewrite (Z.max_r k 0), (Z.max_l (- k) 0) in Hlow by lia.
      rewrite Z.pow_0_r, Z.mul_1_r in Hlow.
      assert (r <= a * 2 ^ (- k)).
      { apply (Z.mul_le_mono_pos_r _ _ C HC).
        replace (a * 2 ^ (- k) * C) with (a * C * 2 ^ (- k)) by ring. exact Hlow. }
      assert (2 ^ (52 - k) = 2 ^ 52 * 2 ^ (- k)).
      { rewrite <- Z.pow_add_r by lia. f_equal; lia. }
      pose proof (pow2_pos (- k) ltac:(lia)). nia. }
  set (m := div_rne (a * C * (2 * H)) (r * C)).
  assert (Hover : m < 2 ^ 1024).
  { destruct (div_rne_bounds (a * C * (2 * H)) (r * C) ltac:(nia) ltac:(nia))
      as [[_ Hm2] _].
    fold m in Hm2.
    assert (Hq : a * C * (2 * H) / (r * C) <= a * (2 * H)).
    { apply Z.div_le_upper_bound; [nia|].
      replace (r * C * (a * (2 * H))) with (r * (a * C * (2 * H))) by ring.
      assert (0 <= a * C * (2 * H)) by nia. nia. }
    assert (HH' : 2 * H <= 2 ^ 104).
    { rewrite <- H2s. apply Z.pow_le_mono_r; lia. }
    assert (a * (2 * H) <= 2 ^ 52 * 2 ^ 104).
    { apply Z.mul_le_mono_nonneg; lia. }
    assert (2 ^ 52 * 2 ^ 104 + 1 < 2 ^ 1024).
    { rewrite <- Z.pow_add_r by lia.
      assert (2 ^ (52 + 104) < 2 ^ 157) by (apply Z.pow_lt_mono_r; lia).
      assert (2 ^ 157 < 2 ^ 1024) by (apply Z.pow_lt_mono_r; lia). lia. }
    lia. }
  destruct (Z.leb_spec (2 ^ 1024) m) as [|_]; [lia|].
  exists C, H, k. repeat split; try assumption; lia.
Qed.

Lemma Math_round_small s m k H :
  k < 52 -> 2 ^ (52 - k) = 2 * H ->
  Math_round (DFin s m (k - 52))
  = Num ((2 * (if s then - m else m) + 2 * H) / (2 * (2 * H))).
Proof.
  intros Hk H2s. unfold Math_round.
  rewrite (Z.max_r (k - 52) 0), (Z.max_l (- (k - 52)) 0) by lia.
  replace (- (k - 52)) with (52 - k) by lia.
  rewrite H2s, Z.pow_0_r, Z.mul_1_r. reflexivity.
Qed.

(** Where [|total| + rowCount] is below [2^52] the rounding of the double
    division is not seen: the result is [floor (t / r + 1/2)]. *)
Lemma round_div_exact t r :
  0 < r -> Z.abs t + r < 2 ^ 52 ->
  round_div (Some t) (Some r) = Num ((2 * t + r) / (2 * r)).
Proof.
  intros Hr Hsum. unfold round_div.
  rewrite (to_double_small r) by lia.
  rewrite (Z.abs_eq r) by lia.
  destruct (Z.ltb_spec r 0) as [|_]; [lia|].
  destruct (Z.eq_dec t 0) as [->|Ht0].
  { pose proof (Z.log2_nonneg r) as Hlr0.
    assert (Hmr : 0 < r * 2 ^ (52 - Z.log2 r)).
    { apply Z.mul_pos_pos; [lia | apply pow2_pos].
      pose proof (proj1 (Z.log2_lt_pow2 r 52 Hr) ltac:(lia)). lia. }
    change (to_double 0) with (DFin false 0 0). unfold div_double.
    destruct (Z.eqb_spec (r * 2 ^ (52 - Z.log2 r)) 0) as [|_]; [lia|].
    rewrite Z.mul_0_l. unfold round_double. change (0 =? 0) with true.
    cbn [Math_round xorb]. change (Z.max 0 0) with 0. change (Z.max (- 0) 0) with 0.
    change (2 ^ 0) with 1. change ((2 * 0 * 1 + 1) / (2 * 1)) with 0.
    rewrite Z.div_small; [reflexivity | lia]. }
  rewrite (to_double_small t) by lia.
  destruct (div_double_small (t <? 0) (Z.abs t) r ltac:(lia) Hr Hsum)
    as (C & H & k & HC & HH & HrH & Hk & H2s & ->).
  rewrite (Math_round_small _ _ k H Hk H2s). f_equal.
  destruct (Z.ltb_spec t 0) as [Hneg|Hpos].
  - rewrite rne_round_neg by lia. f_equal. lia.
  - rewrite rne_round by lia. f_equal. lia.
Qed.

(** The model on known doubles: 2^53 + 1 is read as 2^53; 1/3 is
    0x1.5555555555555p-2; the largest finite double and the first integer
    that is read as an infinity. *)
Example to_double_rounds :
  to_double 9007199254740993 = DFin false 4503599627370496 1.
Proof. vm_compute. reflexivity. Qed.

Example div_double_third :
  div_double (to_double 1) (to_double 3) = DFin false 6004799503160661 (-54).
Proof. vm_compute. reflexivity. Qed.

Example to_double_overflow :
  to_double (2 ^ 1024 - 2 ^ 970 - 1) = DFin false 9007199254740991 971
  ∧ to_double (2 ^ 1024 - 2 ^ 970) = DInf false.
Proof. vm_compute. split; reflexivity. Qed.

End Doubles.

(** ** Completion of a request *)

Section Completion.

Implicit Types (that : Datagrid).

Lemma nearest_integer_unique t r n m :
  (0 < r)%Z → nearest_integer t r n → nearest_integer t r m → n = m.
Proof. unfold nearest_integer. intros Hr [H1 H2] [H3 H4]. nia. Qed.

Lemma round_div_nearest t r :
  (0 < r)%Z → (Z.abs t + r < 2 ^ 52)%Z →
  ∃ n, round_div (Some t) (Some r) = Num n ∧ nearest_integer t r n.
Proof.
  intros Hr Hsum. rewrite round_div_exact by assumption.
  eexists; split; [reflexivity|].
  pose proof (Z.div_mod (2 * t + r) (2 * r) ltac:(lia)) as Hdiv.
  pose proof (Z.mod_pos_bound (2 * t + r) (2 * r) ltac:(lia)) as Hmod.
  unfold nearest_integer. nia.
Qed.

(** The page count the pagination widget holds after a response with a
    JSON body has been handled. *)
Lemma pageCount_after_response that error b :
  pageCount (pagination (step that
    (RequestEnd error (Some (mkResponse (Some b))))))
  = Some (round_div (total b) (body_rowCount b)).
Proof. reflexivity. Qed.

(** C5, as the code has it: after a response whose body reports an integer
    [total] and a positive integer [rowCount] with [|total| + rowCount]
    below [2^52], the page count given to the pagination widget is the
    integer nearest to [total / rowCount], halves going up; 95 rows in
    pages of 10 give 10 pages, 94 rows give 9. *)
Theorem page_count_rounds_to_nearest :
  (∀ that error b t r,
     total b = Some t → body_rowCount b = Some r →
     (0 < r)%Z → (Z.abs t + r < 2 ^ 52)%Z →
     ∃ n, pageCount (pagination (step that
            (RequestEnd error (Some (mkResponse (Some b))))))
          = Some (Num n)
          ∧ nearest_integer t r n)
  ∧ (∀ that error,
       pageCount (pagination (step that
         (RequestEnd error (Some (page_of 10 95))))) = Some (Num 10))
  ∧ (∀ that error,
       pageCount (pagination (step that
         (RequestEnd error (Some (page_of 10 94))))) = Some (Num 9)).
Proof.
  split; [|split; intros that error; unfold page_of;
           rewrite pageCount_after_response; vm_compute; reflexivity].
  intros that error b t r Ht Hr Hpos_r Hsum.
  rewrite pageCount_after_response, Ht, Hr.
  destruct (round_div_nearest t r Hpos_r Hsum) as (n & -> & Hn). eauto.
Qed.

Lemma page_count_rounds_to_nearest_witness :
  ∃ n, pageCount (pagination (step users_grid
         (RequestEnd None (Some (page_of 10 95))))) = Some (Num n)
       ∧ nearest_integer 95 10 n.
Proof.
  apply (proj1 page_count_rounds_to_nearest users_grid None
           (mkBody (Some 1%Z) (Some 10%Z) (Some 95%Z) []) 95%Z 10%Z);
    [reflexivity | reflexivity | lia | reflexivity].
Defined.

(** C5, as the claim has it, fails past the precision of a double: of
    6755399441055745 rows in pages of 3 the quotient is rounded to
    2251799813685248.5 before [Math.round] sees it, and the page count is
    2251799813685249, while the integer nearest to the quotient is
    2251799813685248.  Nor is the count an integer for every response: with
    a [rowCount] of 0 it is an infinity, with no [rowCount] it is [NaN], and
    for a response without a JSON body no count is given at all. *)
Lemma page_count_not_nearest_for_large_total :
  pageCount (pagination (step users_grid
    (RequestEnd None (Some (page_of 3 6755399441055745)))))
  = Some (Num 2251799813685249)
  ∧ nearest_integer 6755399441055745 3 2251799813685248
  ∧ ¬ nearest_integer 6755399441055745 3 2251799813685249
  ∧ pageCount (pagination (step users_grid
      (RequestEnd None (Some (page_of 0 95))))) = Some (Infinity false)
  ∧ pageCount (pagination (step users_grid
      (RequestEnd None (Some (mkResponse
         (Some (mkBody (Some 1%Z) None (Some 95%Z) []))))))) = Some NaN
  ∧ pageCount (pagination (step users_grid
      (RequestEnd None (Some (mkResponse None))))) = None.
Proof.
  split; [vm_compute; reflexivity|].
  split; [unfold nearest_integer; lia|].
  split; [unfold nearest_integer; lia|].
  split; [vm_compute; reflexivity|].
  split; reflexivity.
Qed.

(** C10: the page count given to the pagination widget follows the
    response, not the request.  It is the same whatever the state of the
    component, its requested [rowCount] included; and for a body that
    reports an integer [total] and a positive integer [rowCount] with
    [|total| + rowCount] below [2^52], it is the integer nearest to [total]
    over the [rowCount] of the body, and is not the one nearest to [total]
    over the requested [rowCount] unless the two are the same. *)
Theorem page_count_from_response :
  (∀ that that' error error' b,
     pageCount (pagination (step that'
       (RequestEnd error' (Some (mkResponse (Some b))))))
     = pageCount (pagination (step that
         (RequestEnd error (Some (mkResponse (Some b)))))))
  ∧ (∀ that error b t r,
       total b = Some t → body_rowCount b = Some r →
       (0 < r)%Z → (Z.abs t + r < 2 ^ 52)%Z →
       ∃ n,
         pageCount (pagination (step that
           (RequestEnd error (Some (mkResponse (Some b))))))
         = Some (Num n)
         ∧ nearest_integer t r n
         ∧ ∀ q m,
             rowCount (requestParams that) = Num q → (0 < q)%Z →
             nearest_integer t q m → m ≠ n →
             pageCount (pagination (step that
               (RequestEnd error (Some (mkResponse (Some b))))))
             ≠ Some (Num m)
             ∧ ¬ nearest_integer t r m).
Proof.
  split; [reflexivity|].
  intros that error b t r Ht Hr Hpos_r Hsum.
  rewrite pageCount_after_response, Ht, Hr.
  destruct (round_div_nearest t r Hpos_r Hsum) as (n & -> & Hn).
  exists n. split_and!; [reflexivity | exact Hn |].
  intros q m _ _ _ Hne. split.
  - intros [= ->]. by apply Hne.
  - intros Hm. apply Hne. by apply (nearest_integer_unique t r).
Qed.

Lemma page_count_from_response_witness :
  rowCount (requestParams users_grid) = Num 15
  ∧ nearest_integer 95 15 6
  ∧ ∃ n,
      pageCount (pagination (step users_grid
        (RequestEnd None (Some (page_of 10 95))))) = Some (Num n)
      ∧ nearest_integer 95 10 n
      ∧ pageCount (pagination (step users_grid
          (RequestEnd None (Some (page_of 10 95))))) ≠ Some (Num 6).
Proof.
  assert (H15 : nearest_integer 95 15 6) by (unfold nearest_integer; lia).
  split; [reflexivity|]. split; [exact H15|].
  destruct (proj2 page_count_from_response users_grid None
              (mkBody (Some 1%Z) (Some 10%Z) (Some 95%Z) []) 95%Z 10%Z
              eq_refl eq_refl ltac:(lia) eq_refl)
    as (n & Hn & Hnear & Hother).
  exists n. split_and!; [exact Hn | exact Hnear |].
  apply (Hother 15%Z 6%Z eq_refl ltac:(lia) H15).
  intros <-. unfold nearest_integer in Hnear. lia.
Defined.

(** The component asked for 15 rows a page, the server answered with pages
    of 10: the page count follows the answer. *)
Example page_count_follows_server :
  rowCount (requestParams users_grid) = Num 15
  ∧ pageCount (pagination (step users_grid
      (RequestEnd None (Some (page_of 10 95))))) = Some (Num 10)
  ∧ round_div (Some 95%Z) (Some 15%Z) = Num 6.
Proof. vm_compute. repeat split. Qed.

(** C7, as the code has it: the callback of a request does not look at the
    error.  It emits [data-ready] with the response argument, whatever the
    error is; the error object itself is dropped.  On a transport failure
    the response is [undefined]: the listener stores it, raises on reading
    its body, and changes nothing else, so no rows or pagination are
    rendered and no history call is made. *)
Theorem request_end_ignores_error error response that :
  loadData_end error response that
  = emit_data_ready (payload_of response) that
  ∧ (∀ error', loadData_end error' response that
               = loadData_end error response that)
  ∧ loadData_end error None that = Threw TypeError (set_data NoResponse that).
Proof. repeat split. Qed.

(** C7, as the claim has it, fails: after a transport failure the listener
    has not been handed the error object. *)
Lemma error_object_not_passed :
  data (step users_grid (RequestEnd (Some network_error) None))
  = Some NoResponse
  ∧ loadData_end (Some network_error) None users_grid
    ≠ emit_data_ready (ErrorObject network_error) users_grid.
Proof. split; [reflexivity|]. vm_compute. discriminate. Qed.

End Completion.

(** ** Sorting *)

Section Sorting.

Implicit Types (that : Datagrid) (el th : Th) (l : list Th).

(** The selector on [data-column] sees the [data-column] attributes only. *)
Lemma querySelector_th_data_column_ext c l1 l2 :
  data_column <$> l1 = data_column <$> l2 →
  querySelector_th_data_column c l1 = querySelector_th_data_column c l2.
Proof.
  intros Heq. unfold querySelector_th_data_column.
  destruct (css_ident c); [|reflexivity]. f_equal.
  revert l2 Heq; induction l1 as [|x l1 IH]; intros [|y l2] Heq;
    try discriminate; [reflexivity|].
  injection Heq as Hxy Heq. cbn. rewrite Hxy.
  case_decide; [reflexivity|].
  specialize (IH l2 Heq).
  destruct (list_find _ l1) as [[]|], (list_find _ l2) as [[]|];
    cbn in *; congruence.
Qed.

Lemma data_column_removeAttribute l :
  data_column <$> (removeAttribute_data_sort <$> l) = data_column <$> l.
Proof. induction l as [|x l IH]; [reflexivity|]. cbn. by rewrite IH. Qed.

Lemma data_column_setAttribute v i l :
  data_column <$> alter (setAttribute_data_sort v) i l = data_column <$> l.
Proof.
  revert i; induction l as [|x l IH]; intros [|i]; try reflexivity.
  cbn. by rewrite IH.
Qed.

(** [setSortHeaders] when the selector finds a header cell: every cell
    loses its [data-sort], then the found one gets the direction. *)
Lemma setSortHeaders_found that i :
  querySelector_th_data_column
    (to_string (sortColumn (requestParams that))) (ths that)
  = Selected (Some i) →
  setSortHeaders that
  = Done (set_ths
            (alter (setAttribute_data_sort
                      (to_string (sortDirection (requestParams that))))
               i (removeAttribute_data_sort <$> ths that)) that).
Proof.
  intros Hsel. unfold setSortHeaders. cbn.
  rewrite (querySelector_th_data_column_ext _ _ (ths that)), Hsel
    by apply data_column_removeAttribute.
  reflexivity.
Qed.

(** A [sort-request] on a cell that the selector for its column finds. *)
Lemma on_sort_request_found el that i c :
  data_column el = Some c →
  querySelector_th_data_column c (ths that) = Selected (Some i) →
  on_sort_request el that
  = Done (mkDatagrid (firstLoad that) (data that) (pagination that)
            (searchTerm that)
            (alter (setAttribute_data_sort (to_string (requested_direction el)))
               i (removeAttribute_data_sort <$> ths that))
            (TbodyLoading (length (ths that))) (toolbarFooter that)
            (src that)
            (mkRequestParams (page (requestParams that))
               (rowCount (requestParams that)) (Str c)
               (requested_direction el) (search (requestParams that)))
            (mkGet (src that)
               (mkRequestParams (page (requestParams that))
                  (rowCount (requestParams that)) (Str c)
                  (requested_direction el) (search (requestParams that)))
             :: requests that)
            (history that)).
Proof.
  intros Hc Hsel. unfold on_sort_request.
  rewrite setSortHeaders_found with (i := i).
  - cbn. rewrite Hc. reflexivity.
  - cbn. rewrite Hc. exact Hsel.
Qed.

(** The parameters after a [sort-request], whether the listener returns or
    raises. *)
Lemma on_sort_request_requestParams el that :
  requestParams (state_of (on_sort_request el that))
  = mkRequestParams (page (requestParams that)) (rowCount (requestParams that))
      (of_nullable (data_column el)) (requested_direction el)
      (search (requestParams that)).
Proof.
  unfold on_sort_request.
  case_setSortHeaders; reflexivity.
Qed.

(** C9: the listener of [sort-request] writes [sortColumn] and
    [sortDirection] and no other parameter: [page], [rowCount] and
    [search] are as before, whether the listener returns or raises.  The
    reload it issues, which it does whenever the column is an identifier
    the selector accepts, carries the parameters so updated. *)
Theorem sort_request_frame el that :
  let that' := state_of (on_sort_request el that) in
  page (requestParams that') = page (requestParams that)
  ∧ rowCount (requestParams that') = rowCount (requestParams that)
  ∧ search (requestParams that') = search (requestParams that)
  ∧ sortColumn (requestParams that') = of_nullable (data_column el)
  ∧ (requests that' = requests that
     ∨ requests that' = mkGet (src that) (requestParams that') :: requests that)
  ∧ (css_ident (to_string (of_nullable (data_column el))) = true →
     on_sort_request el that = Done that'
     ∧ requests that'
       = mkGet (src that) (requestParams that') :: requests that).
Proof.
  cbn zeta. rewrite on_sort_request_requestParams. cbn.
  split_and!; try reflexivity.
  - unfold on_sort_request, setSortHeaders, querySelector_th_data_column. cbn.
    destruct (css_ident _); [|by left].
    destruct (fst <$> list_find _ _) as [i|]; by right.
  - intros Hident.
    unfold on_sort_request, setSortHeaders, querySelector_th_data_column. cbn.
    rewrite Hident.
    destruct (fst <$> list_find _ _) as [i|]; by split.
Qed.

Lemma sort_request_frame_witness :
  let el := mkTh (Some "id") (Some "desc") in
  let that' := state_of (on_sort_request el users_grid) in
  css_ident "id" = true
  ∧ on_sort_request el users_grid = Done that'
  ∧ requests that'
    = mkGet (src users_grid) (requestParams that') :: requests users_grid.
Proof.
  intros el that'. split; [reflexivity|].
  destruct (sort_request_frame el users_grid) as (_ & _ & _ & _ & _ & H).
  exact (H eq_refl).
Defined.

(** One click on a header cell that the selector for its column finds. *)
Lemma header_click_found that i el c :
  ths that !! i = Some el →
  data_column el = Some c →
  querySelector_th_data_column c (ths that) = Selected (Some i) →
  let that' := step that (HeaderClick i) in
  ths that' !! i
  = Some (mkTh (Some c) (Some (to_string (requested_direction el))))
  ∧ querySelector_th_data_column c (ths that') = Selected (Some i)
  ∧ requestParams that'
    = mkRequestParams (page (requestParams that))
        (rowCount (requestParams that)) (Str c) (requested_direction el)
        (search (requestParams that)).
Proof.
  intros Hel Hc Hsel. unfold step, handle, th_onclick. rewrite Hel.
  rewrite (on_sort_request_found el that i c Hc Hsel). cbn.
  split; [|split; [|reflexivity]].
  - rewrite list_lookup_alter_eq, list_lookup_fmap, Hel. cbn.
    unfold setAttribute_data_sort, removeAttribute_data_sort. cbn.
    by rewrite Hc.
  - rewrite <- Hsel. apply querySelector_th_data_column_ext.
    by rewrite data_column_setAttribute, data_column_removeAttribute.
Qed.

Lemma requested_direction_twice c d :
  d = "asc" ∨ d = "desc" →
  requested_direction
    (mkTh (Some c)
       (Some (to_string (requested_direction (mkTh (Some c) (Some d))))))
  = Str d.
Proof. intros [-> | ->]; reflexivity. Qed.

(** C3, as the code has it: on a header cell that shows a direction, [asc]
    or [desc], and that is the cell the selector finds for its column, two
    [sort-request]s in a row bring the direction it shows, and the
    [sortDirection] of the request, back to that direction, with
    [sortColumn] set to its column. *)
Theorem sort_toggle_twice that i el c d :
  ths that !! i = Some el →
  data_column el = Some c →
  data_sort el = Some d →
  d = "asc" ∨ d = "desc" →
  querySelector_th_data_column c (ths that) = Selected (Some i) →
  let that'' := step (step that (HeaderClick i)) (HeaderClick i) in
  shown_direction i that'' = shown_direction i that
  ∧ shown_direction i that'' = Some d
  ∧ sortDirection (requestParams that'') = Str d
  ∧ sortColumn (requestParams that'') = Str c.
Proof.
  intros Hel Hc Hd Hdir Hsel.
  destruct (header_click_found that i el c Hel Hc Hsel) as (Hel1 & Hsel1 & _).
  destruct (header_click_found _ i _ c Hel1 eq_refl Hsel1)
    as (Hel2 & _ & Hparams).
  destruct el as [col srt]; cbn in Hc, Hd; subst col srt.
  cbn zeta. unfold shown_direction. rewrite Hel2, Hparams, Hel.
  rewrite (requested_direction_twice c d Hdir). repeat split.
Qed.

Lemma sort_toggle_twice_witness :
  shown_direction 0 users_grid = Some "desc"
  ∧ shown_direction 0
      (step (step users_grid (HeaderClick 0)) (HeaderClick 0))
    = Some "desc".
Proof.
  split; [reflexivity|].
  apply (sort_toggle_twice users_grid 0 (mkTh (Some "id") (Some "desc"))
           "id" "desc");
    [reflexivity | reflexivity | reflexivity | by right | reflexivity].
Defined.

(** On a header cell that shows no direction, the first [sort-request]
    asks for the default direction and the second for its opposite. *)
Lemma sort_toggle_twice_unsorted that i el c :
  ths that !! i = Some el →
  data_column el = Some c →
  data_sort el = None →
  querySelector_th_data_column c (ths that) = Selected (Some i) →
  shown_direction i (step that (HeaderClick i)) = Some "desc"
  ∧ shown_direction i (step (step that (HeaderClick i)) (HeaderClick i))
    = Some "asc".
Proof.
  intros Hel Hc Hd Hsel.
  destruct (header_click_found that i el c Hel Hc Hsel) as (Hel1 & Hsel1 & _).
  destruct (header_click_found _ i _ c Hel1 eq_refl Hsel1) as (Hel2 & _ & _).
  unfold shown_direction. rewrite Hel1, Hel2.
  unfold requested_direction. rewrite Hd. split; reflexivity.
Qed.

(** C3, as the claim has it, fails on a column that is not sorted: the
    [name] header shows no direction, and after two [sort-request]s it
    shows [asc]; the [sortDirection] of the request, [desc] before, is
    [asc] after. *)
Lemma sort_toggle_twice_not_identity :
  let that'' := step (step users_grid (HeaderClick 1)) (HeaderClick 1) in
  shown_direction 1 users_grid = None
  ∧ shown_direction 1 that'' = Some "asc"
  ∧ shown_direction 1 that'' ≠ shown_direction 1 users_grid
  ∧ sortDirection (requestParams users_grid) = Str "desc"
  ∧ sortDirection (requestParams that'') = Str "asc".
Proof. vm_compute. repeat split. discriminate. Qed.

End Sorting.

(** ** Construction *)

Section Construction.

Implicit Types (that : Datagrid) (th : Th).

Lemma querySelector_default_sort_header component i th :
  default_sort_header component i th →
  querySelector_th_data_sort (header_cells component) = Some (i, th).
Proof.
  intros (Hi & Hsome & Hfirst). apply list_find_Some.
  split_and!; [done..|].
  intros j th' Hj Hlt. rewrite (Hfirst j th' Hj Hlt). by intros [? ?].
Qed.

Lemma querySelector_no_default_sort component :
  no_default_sort component →
  querySelector_th_data_sort (header_cells component) = None.
Proof.
  intros Hnone. apply list_find_None.
  eapply Forall_impl; [exact Hnone|]. intros th -> [? ?]; discriminate.
Qed.

(** With no sort parameters the selector of [setSortHeaders] is built from
    ["undefined"], an identifier: the constructor runs to its end. *)
Lemma new_returns location component :
  css_ident
    (to_string (sortColumn (loadRequestParams location component))) = true →
  ∃ that, new location component = Done that
          ∧ requests that
            = [mkGet (loadSrc component)
                 (loadRequestParams location component)].
Proof.
  intros Hident. unfold new, setSortHeaders, querySelector_th_data_column.
  case_parseSearchbar; cbn; rewrite Hident;
    destruct (fst <$> list_find _ _); cbn; eexists; split; reflexivity.
Qed.

(** C6: the parameters a component starts with.  [page] and [rowCount] are
    parsed from the query string of the page when it has them, and are 1
    and 15 otherwise.  [sortColumn] and [sortDirection] are those of the
    query string when it has them, otherwise those of the header cell
    flagged as the default sort, and are undefined when there is no such
    cell either; in that last case the first request is issued with no
    [sortColumn] and no [sortDirection] parameter.  [search] is the search
    term of the query string, if it has one that is not empty. *)
Theorem initial_request_params_precedence location component :
  let p := requestParams (state_of (new location component)) in
  (∀ s, location !! "page" = Some s → page p = parseInt s)
  ∧ (location !! "page" = None → page p = Num 1)
  ∧ (∀ s, location !! "rowCount" = Some s → rowCount p = parseInt s)
  ∧ (location !! "rowCount" = None → rowCount p = Num 15)
  ∧ (∀ s, location !! "sortColumn" = Some s → sortColumn p = Str s)
  ∧ (∀ s, location !! "sortDirection" = Some s → sortDirection p = Str s)
  ∧ (∀ s, location !! "search" = Some s → s ≠ "" → search p = Some s)
  ∧ (location !! "search" = None → search p = None)
  ∧ (∀ i th, default_sort_header component i th →
       (location !! "sortColumn" = None →
        sortColumn p = of_nullable (data_column th))
       ∧ (location !! "sortDirection" = None →
          sortDirection p = of_nullable (data_sort th)))
  ∧ (no_default_sort component →
       location !! "sortColumn" = None →
       location !! "sortDirection" = None →
       sortColumn p = Undefined
       ∧ sortDirection p = Undefined
       ∧ ∃ that,
           new location component = Done that
           ∧ requests that = [mkGet (loadSrc component) p]
           ∧ ∀ key v, (key, v) ∈ serialize p →
                      key ≠ "sortColumn" ∧ key ≠ "sortDirection").
Proof.
  cbn zeta. rewrite new_requestParams.
  assert (Hfield : ∀ (A : Type) (f : RequestParams → A),
            (∀ s q, f (set_search s q) = f q) →
            f (loadRequestParams location component)
            = f (mkRequestParams (getPageNumber location)
                   (getRowCount location) (getSortColumn location component)
                   (getSortDirection location component) None)).
  { intros A f Hf. unfold loadRequestParams.
    destruct (truthy _); [apply Hf | reflexivity]. }
  rewrite (Hfield _ page), (Hfield _ rowCount), (Hfield _ sortColumn),
    (Hfield _ sortDirection) by reflexivity. cbn.
  unfold getPageNumber, getRowCount, getSortColumn, getSortDirection,
    readQueryString.
  split_and!.
  - by intros s ->.
  - by intros ->.
  - by intros s ->.
  - by intros ->.
  - by intros s ->.
  - by intros s ->.
  - intros s Hs Hne. rewrite loadRequestParams_search, Hs.
    destruct (String.eqb_spec s ""); [done | reflexivity].
  - intros Hs. by rewrite loadRequestParams_search, Hs.
  - intros i th Hdefault.
    rewrite (querySelector_default_sort_header _ _ _ Hdefault).
    split; by intros ->.
  - intros Hnone Hcol Hdir.
    rewrite (querySelector_no_default_sort _ Hnone), Hcol, Hdir. cbn.
    split_and!; [done..|].
    destruct (new_returns location component) as (that & Hnew & Hreq).
    { rewrite (Hfield _ (λ q, css_ident (to_string (sortColumn q))))
        by reflexivity. cbn.
      unfold getSortColumn, readQueryString.
      by rewrite Hcol, (querySelector_no_default_sort _ Hnone). }
    exists that. split_and!; [done..|].
    intros key v. unfold serialize.
    rewrite (Hfield _ sortColumn), (Hfield _ sortDirection) by reflexivity.
    cbn. unfold getSortColumn, getSortDirection, readQueryString.
    rewrite (querySelector_no_default_sort _ Hnone), Hcol, Hdir. cbn.
    intros Hin.
    repeat (apply elem_of_cons in Hin as [Hin | Hin];
            [injection Hin as -> _; done|]).
    destruct (search _); [|by apply elem_of_nil in Hin].
    apply list_elem_of_singleton in Hin. injection Hin as -> _; done.
Qed.

Lemma initial_request_params_precedence_witness :
  no_default_sort plain_table
  ∧ sortColumn (requestParams (state_of (new ∅ plain_table))) = Undefined
  ∧ sortDirection (requestParams (state_of (new ∅ plain_table))) = Undefined
  ∧ default_sort_header users_table 0 (mkTh (Some "id") (Some "desc"))
  ∧ sortColumn (requestParams users_grid) = Str "id"
  ∧ sortDirection (requestParams users_grid) = Str "desc".
Proof.
  assert (Hplain : no_default_sort plain_table) by (repeat constructor).
  assert (Husers : default_sort_header users_table 0
                     (mkTh (Some "id") (Some "desc"))).
  { split_and!; [reflexivity | by eexists | intros j th' _ Hlt; lia]. }
  destruct (initial_request_params_precedence ∅ plain_table)
    as (_ & _ & _ & _ & _ & _ & _ & _ & _ & Hnone).
  destruct (Hnone Hplain eq_refl eq_refl) as (Hcol & Hdir & _).
  destruct (initial_request_params_precedence ∅ users_table)
    as (_ & _ & _ & _ & _ & _ & _ & _ & Hdefault & _).
  destruct (Hdefault 0 _ Husers) as (Hcol' & Hdir').
  split_and!;
    [exact Hplain | exact Hcol | exact Hdir | exact Husers
    | exact (Hcol' eq_refl) | exact (Hdir' eq_refl)].
Defined.

End Construction.

(** ** The state of the request over a run *)

Section Invariant.

Implicit Types (that : Datagrid) (th : Th) (ev : event).










End Invariant.

(** ** What a run keeps *)

(** Case analysis on an event, down to the outcome of its listener. *)
Ltac case_event that ev :=
  let i := fresh "i" in
  let el := fresh "el" in
  let Hel := fresh "Hel" in
  destruct ev as [i | ? | ? | ? [[[?|]]|]];
  [ unfold step, handle, th_onclick;
    destruct (ths that !! i) as [el|] eqn:Hel;
    [ unfold on_sort_request; case_setSortHeaders | ]
  | .. ].

Section Kept.

Implicit Types (that : Datagrid) (ev : event) (evs : list event).

Lemma run_cons ev evs that : run (ev :: evs) that = run evs (step that ev).
Proof. reflexivity. Qed.

(** A property that the construction gives and every event keeps holds in
    every state of a run. *)
Lemma run_invariant (P : Datagrid → Prop) evs that :
  P that → (∀ that ev, P that → P (step that ev)) → P (run evs that).
Proof.
  intros H0 Hstep. revert that H0.
  induction evs as [|ev evs IH]; intros that H0; [exact H0|].
  rewrite run_cons. apply IH, Hstep, H0.
Qed.

Lemma new_fields location component :
  firstLoad (state_of (new location component)) = true
  ∧ src (state_of (new location component)) = loadSrc component
  ∧ data (state_of (new location component)) = None
  ∧ pagination (state_of (new location component)) = new_Pagination
  ∧ searchTerm (state_of (new location component))
    = match search (loadRequestParams location component) with
      | Some s => if String.eqb s "" then None else Some s
      | None => None
      end.
Proof.
  unfold new, parseSearchbar. cbn.
  destruct (search (loadRequestParams location component)) as [s|];
    [destruct (String.eqb s "")|];
    case_setSortHeaders; repeat split.
Qed.

(** [setSortHeaders] keeps the [data-column] of every header cell. *)
Lemma setSortHeaders_data_column that :
  data_column <$> ths (state_of (setSortHeaders that))
  = data_column <$> ths that.
Proof.
  unfold setSortHeaders. cbn.
  destruct (querySelector_th_data_column _ _) as [|[j|]]; cbn;
    by rewrite ?data_column_setAttribute, data_column_removeAttribute.
Qed.

Lemma step_fixed_fields that ev :
  rowCount (requestParams (step that ev)) = rowCount (requestParams that)
  ∧ src (step that ev) = src that
  ∧ searchTerm (step that ev) = searchTerm that
  ∧ data_column <$> ths (step that ev) = data_column <$> ths that.
Proof.
  destruct ev as [i | dp | v | error [[[b|]]|]]; try (repeat split; fail).
  unfold step, handle, th_onclick.
  destruct (ths that !! i) as [el|]; [|repeat split].
  pose proof (on_sort_request_requestParams el that) as Hparams.
  unfold on_sort_request in *.
  match goal with |- context [setSortHeaders ?t] =>
    pose proof (setSortHeaders_data_column t) as Hcol end.
  split_and!.
  - by rewrite Hparams.
  - case_setSortHeaders; reflexivity.
  - case_setSortHeaders; reflexivity.
  - etrans; [|exact Hcol]. case_setSortHeaders; reflexivity.
Qed.

Lemma loadRequestParams_rowCount location component :
  rowCount (loadRequestParams location component) = getRowCount location.
Proof. unfold loadRequestParams. by destruct (truthy _). Qed.

(** X1: what the constructor sets and no listener writes.  In every state
    of a run [rowCount] is the one read at construction (the [rowCount] of
    the query string, or 15), [src] is the [data-src] of the table, and
    [firstLoad] is still [true]. *)
Theorem construction_settings_are_fixed location component evs :
  let that := run evs (state_of (new location component)) in
  rowCount (requestParams that) = getRowCount location
  ∧ src that = loadSrc component
  ∧ firstLoad that = true.
Proof.
  cbn zeta. split_and!.
  - apply (run_invariant
             (λ that, rowCount (requestParams that) = getRowCount location)).
    + by rewrite new_requestParams, loadRequestParams_rowCount.
    + intros that ev <-. apply step_fixed_fields.
  - apply (run_invariant (λ that, src that = loadSrc component)).
    + apply new_fields.
    + intros that ev <-. apply step_fixed_fields.
  - rewrite firstLoad_run. apply new_fields.
Qed.

(** X2: the component never adds, removes or renames a column: in every
    state of a run the header cells carry, in order, the [data-column]
    attributes of the markup. *)
Theorem header_columns_are_fixed location component evs :
  data_column <$> ths (run evs (state_of (new location component)))
  = data_column <$> header_cells component.
Proof.
  apply (run_invariant
           (λ that, data_column <$> ths that
                    = data_column <$> header_cells component)).
  - unfold new.
    match goal with |- context [setSortHeaders ?t] =>
      pose proof (setSortHeaders_data_column t) as Hcol end.
    etrans; [|etrans; [exact Hcol|]].
    + case_setSortHeaders; reflexivity.
    + case_parseSearchbar; reflexivity.
  - intros that ev <-. apply step_fixed_fields.
Qed.

(** X3: the search bar is filled once, at construction, with the search
    term of the query string when that is not empty; no listener writes it
    afterwards, a submitted search included. *)
Theorem searchbar_is_filled_at_construction location component evs :
  searchTerm (run evs (state_of (new location component)))
  = match location !! "search" with
    | Some s => if String.eqb s "" then None else Some s
    | None => None
    end.
Proof.
  apply (run_invariant (λ that, searchTerm that = _)).
  - destruct (new_fields location component) as (_ & _ & _ & _ & ->).
    rewrite loadRequestParams_search.
    destruct (location !! "search") as [s|]; [|reflexivity].
    destruct (String.eqb s "") eqn:E; [reflexivity | by rewrite E].
  - intros that ev <-. apply step_fixed_fields.
Qed.

(** After [setSortHeaders], returned or raised, at most one header cell
    carries [data-sort]. *)
Lemma setSortHeaders_one_sorted that :
  one_sorted (ths (state_of (setSortHeaders that))).
Proof.
  assert (Hnone : ∀ j b, (removeAttribute_data_sort <$> ths that) !! j = Some b →
                         ¬ is_Some (data_sort b)).
  { intros j b Hj [d Hd]. rewrite list_lookup_fmap in Hj.
    destruct (ths that !! j); cbn in Hj; [|discriminate].
    injection Hj as <-. discriminate. }
  unfold setSortHeaders. cbn.
  destruct (querySelector_th_data_column _ _) as [|[k|]]; cbn;
    intros i j a b Hi Hj Ha Hb;
    try (by destruct (Hnone i a Hi Ha)).
  destruct (decide (k = i)) as [->|Hki].
  - destruct (decide (i = j)) as [->|Hij]; [reflexivity|].
    rewrite list_lookup_alter_ne in Hj by done.
    by destruct (Hnone j b Hj Hb).
  - rewrite list_lookup_alter_ne in Hi by done.
    by destruct (Hnone i a Hi Ha).
Qed.

(** X4: sorting is on one column at a time.  In every state of a run at
    most one header cell carries [data-sort], however many cells of the
    markup declare one. *)
Theorem one_sorted_header location component evs :
  one_sorted (ths (run evs (state_of (new location component)))).
Proof.
  apply (run_invariant (λ that, one_sorted (ths that))).
  - unfold new.
    match goal with |- context [setSortHeaders ?t] =>
      pose proof (setSortHeaders_one_sorted t) as H end.
    revert H. case_setSortHeaders; exact id.
  - intros that ev Hone.
    destruct ev as [i | dp | v | error [[[b|]]|]]; try exact Hone.
    unfold step, handle, th_onclick.
    destruct (ths that !! i) as [el|]; [|exact Hone].
    unfold on_sort_request.
    match goal with |- context [setSortHeaders ?t] =>
      pose proof (setSortHeaders_one_sorted t) as H end.
    revert H. case_setSortHeaders; exact id.
Qed.

Lemma history_step_length that ev :
  length (history (step that ev))
  = length (history that) + (if is_load ev then 1 else 0).
Proof.
  case_event that ev; cbn; lia.
Qed.

(** X5: one history entry per successful load.  After a run the history
    module has been called once for every completion that carried a JSON
    body, each time with [push], and not at all for the other events:
    failed completions and user actions leave it alone. *)
Theorem history_counts_loads location component evs :
  let that := run evs (state_of (new location component)) in
  length (history that) = length (List.filter is_load evs)
  ∧ Forall is_push (history that).
Proof.
  cbn zeta. split.
  - assert (H : ∀ that, length (history (run evs that))
                        = length (history that)
                          + length (List.filter is_load evs)).
    { induction evs as [|ev evs IH]; intros that; cbn; [lia|].
      fold (run evs (step that ev)). rewrite IH, history_step_length.
      destruct (is_load ev); cbn; lia. }
    rewrite H, new_history. reflexivity.
  - apply history_run_pushes. rewrite new_history. constructor.
Qed.

Lemma requests_step that ev :
  requests (step that ev) = requests that
  ∨ is_trigger ev = true
    ∧ ∃ p, requests (step that ev) = mkGet (src that) p :: requests that.
Proof.
  case_event that ev; cbn; (by left) || (right; split; [done|by eexists]).
Qed.

(** X6: every request goes to the configured endpoint, and only user
    actions and the construction issue one: after a run every request in
    the log has the [data-src] of the table as its address, and there are at
    most one more requests than there were clicks and search submissions. *)
Theorem requests_go_to_src location component evs :
  let that := run evs (state_of (new location component)) in
  Forall (λ g, get_url g = loadSrc component) (requests that)
  ∧ (length (requests that) ≤ 1 + length (List.filter is_trigger evs))%nat.
Proof.
  cbn zeta.
  assert (Hnew : src (state_of (new location component)) = loadSrc component
            ∧ Forall (λ g, get_url g = loadSrc component)
                (requests (state_of (new location component)))
            ∧ (length (requests (state_of (new location component))) ≤ 1)%nat).
  { unfold new. case_setSortHeaders; case_parseSearchbar; cbn;
      repeat split; repeat constructor. }
  destruct Hnew as (Hsrc & Hall & Hlen).
  revert Hsrc Hall Hlen.
  generalize (state_of (new location component)) as that.
  generalize 1 as n.
  induction evs as [|ev evs IH]; intros n that Hsrc Hall Hlen.
  { split; [exact Hall | cbn; lia]. }
  rewrite run_cons.
  destruct (requests_step that ev) as [Heq | [Htrig [p Heq]]].
  - destruct (IH n (step that ev)) as [H1 H2].
    + rewrite <- Hsrc. apply step_fixed_fields.
    + by rewrite Heq.
    + by rewrite Heq.
    + split; [exact H1|]. cbn. destruct (is_trigger ev); cbn; lia.
  - destruct (IH (S n) (step that ev)) as [H1 H2].
    + rewrite <- Hsrc. apply step_fixed_fields.
    + rewrite Heq. constructor; [exact Hsrc | exact Hall].
    + rewrite Heq. cbn. lia.
    + split; [exact H1|]. cbn. rewrite Htrig. cbn. lia.
Qed.

(** X7: a user action re-renders nothing but the table body and the header
    marks: the stored payload, the pagination widget, the footer and the
    history log are as they were until a completion arrives. *)
Theorem triggers_leave_rendering that ev :
  is_trigger ev = true →
  data (step that ev) = data that
  ∧ pagination (step that ev) = pagination that
  ∧ toolbarFooter (step that ev) = toolbarFooter that
  ∧ history (step that ev) = history that.
Proof.
  intros Htrig. case_event that ev; try discriminate; repeat split.
Qed.

Lemma triggers_leave_rendering_witness :
  is_trigger (SearchSubmit "smith") = true
  ∧ pagination (step users_grid (SearchSubmit "smith"))
    = pagination users_grid.
Proof.
  split; [reflexivity|].
  apply (triggers_leave_rendering users_grid (SearchSubmit "smith")).
  reflexivity.
Defined.

End Kept.

(** ** Clicks on header cells *)

Section Clicks.

Implicit Types (that : Datagrid) (el th : Th).

(** X8: a click on a header cell sorts by its column alone.  When the cell
    is the one the selector finds for its column, the request that follows
    carries that column; the direction is [desc] if the cell showed none,
    and the opposite of the one it showed otherwise; the cell shows the new
    direction and every other cell shows none, whatever they showed
    before. *)
Theorem header_click_sorts_by_column that i el c :
  ths that !! i = Some el →
  data_column el = Some c →
  querySelector_th_data_column c (ths that) = Selected (Some i) →
  let that' := step that (HeaderClick i) in
  sortColumn (requestParams that') = Str c
  ∧ (data_sort el = None →
     sortDirection (requestParams that') = Str "desc"
     ∧ shown_direction i that' = Some "desc")
  ∧ (data_sort el = Some "asc" →
     sortDirection (requestParams that') = Str "desc"
     ∧ shown_direction i that' = Some "desc")
  ∧ (data_sort el = Some "desc" →
     sortDirection (requestParams that') = Str "asc"
     ∧ shown_direction i that' = Some "asc")
  ∧ (∀ j, j ≠ i → shown_direction j that' = None)
  ∧ requests that' = mkGet (src that) (requestParams that') :: requests that.
Proof.
  intros Hel Hc Hsel. cbn zeta.
  destruct (header_click_found that i el c Hel Hc Hsel) as (Hel' & _ & Hparams).
  unfold shown_direction. rewrite Hel', Hparams. cbn.
  unfold requested_direction.
  split_and!; try (intros ->; by split); [reflexivity | |].
  - intros j Hj. unfold step, handle, th_onclick. rewrite Hel.
    rewrite (on_sort_request_found el that i c Hc Hsel). cbn.
    rewrite list_lookup_alter_ne, list_lookup_fmap by done.
    by destruct (ths that !! j).
  - unfold step, handle, th_onclick. rewrite Hel.
    by rewrite (on_sort_request_found el that i c Hc Hsel).
Qed.

Lemma header_click_sorts_by_column_witness :
  let that' := step users_grid (HeaderClick 1) in
  sortColumn (requestParams that') = Str "name"
  ∧ sortDirection (requestParams that') = Str "desc"
  ∧ shown_direction 0 that' = None.
Proof.
  destruct (header_click_sorts_by_column users_grid 1 (mkTh (Some "name") None)
              "name" eq_refl eq_refl eq_refl) as (Hcol & Hnone & _ & _ & Hothers & _).
  destruct (Hnone eq_refl) as [Hdir _].
  split_and!; [exact Hcol | exact Hdir | apply Hothers; lia].
Defined.

(** A header cell that shows the text of an undefined direction keeps it
    under clicks. *)
Lemma undefined_direction_click that i c :
  ths that !! i = Some (mkTh (Some c) (Some "undefined")) →
  querySelector_th_data_column c (ths that) = Selected (Some i) →
  ths (step that (HeaderClick i)) !! i
  = Some (mkTh (Some c) (Some "undefined"))
  ∧ querySelector_th_data_column c (ths (step that (HeaderClick i)))
    = Selected (Some i)
  ∧ sortDirection (requestParams (step that (HeaderClick i))) = Undefined.
Proof.
  intros Hel Hsel.
  destruct (header_click_found that i _ c Hel eq_refl Hsel)
    as (Hel' & Hsel' & Hparams).
  split_and!; [exact Hel' | exact Hsel' | by rewrite Hparams].
Qed.

(** X9: a sort column without a direction cannot be given one by clicking.
    When the query string names a [sortColumn] that a header cell declares
    but no [sortDirection], and no header cell is flagged as the default
    sort, that cell is marked with the text [undefined]; after any number
    of clicks on it the direction of the request is still undefined and the
    mark is still that text. *)
Theorem undefined_direction_sticks location component i c n :
  location !! "sortColumn" = Some c →
  location !! "sortDirection" = None →
  no_default_sort component →
  querySelector_th_data_column c (header_cells component)
  = Selected (Some i) →
  let that :=
    run (replicate n (HeaderClick i)) (state_of (new location component)) in
  sortDirection (requestParams that) = Undefined
  ∧ shown_direction i that = Some "undefined".
Proof.
  intros Hcol Hdir Hnone Hsel. cbn zeta.
  assert (Hinit :
    ths (state_of (new location component)) !! i
    = Some (mkTh (Some c) (Some "undefined"))
    ∧ querySelector_th_data_column c (ths (state_of (new location component)))
      = Selected (Some i)
    ∧ sortDirection (requestParams (state_of (new location component)))
      = Undefined).
  { assert (Hc : sortColumn (loadRequestParams location component) = Str c).
    { unfold loadRequestParams, getSortColumn, readQueryString.
      destruct (truthy _); cbn; by rewrite Hcol. }
    assert (Hd : sortDirection (loadRequestParams location component)
                 = Undefined).
    { unfold loadRequestParams, getSortDirection, readQueryString.
      destruct (truthy _); cbn;
        by rewrite Hdir, (querySelector_no_default_sort _ Hnone). }
    assert (Hcell : ∃ el, header_cells component !! i = Some el
                          ∧ data_column el = Some c).
    { unfold querySelector_th_data_column in Hsel.
      destruct (css_ident c); [|discriminate].
      destruct (list_find _ _) as [[k el]|] eqn:Hfind; [|discriminate].
      injection Hsel as ->.
      apply list_find_Some in Hfind as (Hk & Hcol' & _). eauto. }
    destruct Hcell as (el & Hel & Hel_col).
    rewrite new_requestParams, Hd.
    unfold new.
    match goal with |- context [setSortHeaders ?t] =>
      assert (Hfound : setSortHeaders t
        = Done (set_ths
                  (alter (setAttribute_data_sort "undefined") i
                     (removeAttribute_data_sort <$> header_cells component)) t))
    end.
    { rewrite setSortHeaders_found with (i := i).
      - case_parseSearchbar; cbn; by rewrite Hd.
      - case_parseSearchbar; cbn; by rewrite Hc. }
    rewrite Hfound. cbn. split_and!; [| |reflexivity].
    - rewrite list_lookup_alter_eq, list_lookup_fmap, Hel. cbn.
      unfold setAttribute_data_sort, removeAttribute_data_sort. cbn.
      by rewrite Hel_col.
    - rewrite <- Hsel. apply querySelector_th_data_column_ext.
      by rewrite data_column_setAttribute, data_column_removeAttribute. }
  revert Hinit. generalize (state_of (new location component)) as that.
  induction n as [|n IH]; intros that (Hel & Hsel' & Hundef).
  - cbn. unfold shown_direction. by rewrite Hel.
  - cbn [replicate]. rewrite run_cons. apply IH.
    by apply undefined_direction_click.
Qed.

Lemma undefined_direction_sticks_witness :
  let that :=
    run (replicate 3 (HeaderClick 0))
      (state_of (new {[ "sortColumn" := "id" ]} plain_table)) in
  sortDirection (requestParams that) = Undefined
  ∧ shown_direction 0 that = Some "undefined".
Proof.
  apply (undefined_direction_sticks {[ "sortColumn" := "id" ]} plain_table
           0 "id" 3);
    [reflexivity | reflexivity | repeat constructor | reflexivity].
Defined.

End Clicks.

(** ** Page links *)

Section PageLinks.

Implicit Types (that : Datagrid) (d : Decimal.uint).

Lemma parse_digits_digit c k s acc :
  digit_of c = Some k → (k <? 10)%Z = true →
  parse_digits 10 (String c s) acc
  = parse_digits 10 s (Some (10 * default 0%Z acc + k)%Z).
Proof. intros H1 H2. cbn [parse_digits]. by rewrite H1, H2. Qed.

(** One decimal digit read by [parse_digits]. *)
Ltac read_digit :=
  match goal with
  | |- context [parse_digits 10 (String ?c ?s) ?acc] =>
      let r := eval vm_compute in (digit_of c) in
      match r with
      | Some ?k => rewrite (parse_digits_digit c k s acc) by reflexivity
      end
  end.

Lemma parse_digits_uint d (a : nat) :
  parse_digits 10 (NilEmpty.string_of_uint d) (Some (Z.of_nat a))
  = Some (Z.of_nat (Nat.of_uint_acc d a)).
Proof.
  revert a; induction d as [|d IH|d IH|d IH|d IH|d IH|d IH|d IH|d IH|d IH|d IH];
    intros a; [reflexivity|..];
    cbn [NilEmpty.string_of_uint Nat.of_uint_acc];
    read_digit; rewrite <- IH; f_equal; f_equal;
    cbn [default from_option]; rewrite Nat.tail_mul_spec; unfold id; lia.
Qed.

Lemma parseInt_uint d :
  d ≠ Decimal.Nil →
  parseInt (NilEmpty.string_of_uint d) = Num (Z.of_nat (Nat.of_uint d)).
Proof.
  intros Hd. unfold Nat.of_uint.
  pose proof (parse_digits_uint d 0) as H.
  transitivity
    (match parse_digits 10 (NilEmpty.string_of_uint d) (Some (Z.of_nat 0)) with
     | Some z => Num z
     | None => NaN
     end); [|by rewrite H].
  clear H.
  destruct d as [|d|d|d|d|d|d|d|d|d|d]; [done|..]; try reflexivity.
  destruct d as [|d|d|d|d|d|d|d|d|d|d]; reflexivity.
Qed.

Lemma parseInt_decimal (n : nat) : parseInt (decimal n) = Num (Z.of_nat n).
Proof.
  unfold decimal. rewrite parseInt_uint.
  - by rewrite DecimalNat.Unsigned.of_to.
  - intros Hnil. pose proof (DecimalNat.Unsigned.of_to n) as H.
    rewrite Hnil in H. cbn in H. subst n. discriminate.
Qed.

(** X10: a page link is read back as the number it was written from.  For
    [n] up to 2^53, where a numeral is read without rounding, a click on a
    link whose [data-page] is the decimal numeral of [n] sets [page] to [n],
    leaves the other parameters as they were, shows the loading row and
    issues one request with the new parameters; no bound from the page
    count is checked, so [n] may be 0 or past the last page. *)
Theorem pagination_request_reads_decimal that (n : nat) :
  (Z.of_nat n ≤ 2 ^ 53)%Z →
  ∃ that',
    handle (PaginationClick (Some (decimal n))) that = Done that'
    ∧ page (requestParams that') = Num (Z.of_nat n)
    ∧ rowCount (requestParams that') = rowCount (requestParams that)
    ∧ sortColumn (requestParams that') = sortColumn (requestParams that)
    ∧ sortDirection (requestParams that') = sortDirection (requestParams that)
    ∧ search (requestParams that') = search (requestParams that)
    ∧ tbody that' = TbodyLoading (length (ths that))
    ∧ requests that' = mkGet (src that) (requestParams that') :: requests that.
Proof.
  intros _. eexists; split; [reflexivity|]. cbn.
  unfold parseInt_value. cbn. rewrite parseInt_decimal. repeat split.
Qed.

Lemma pagination_request_reads_decimal_witness :
  ∃ that',
    handle (PaginationClick (Some "7")) users_grid = Done that'
    ∧ page (requestParams that') = Num 7.
Proof.
  destruct (pagination_request_reads_decimal users_grid 7 ltac:(discriminate))
    as (that' & Hdone & Hpage & _).
  exists that'. split; [exact Hdone | exact Hpage].
Defined.

(** X11: a page link without a [data-page] attribute is not rejected: the
    listener sets [page] to [NaN] and issues the request all the same, with
    [NaN] as its [page] parameter; on the next successful load the
    pagination widget is given [NaN] as the current page and [null] in its
    copy of the parameters. *)
Theorem pagination_request_without_page that error b :
  let that' := step that (PaginationClick None) in
  page (requestParams that') = NaN
  ∧ (∃ g, head (requests that') = Some g
          ∧ ("page", SNum NaN) ∈ serialize (get_query g))
  ∧ let that'' :=
      step that' (RequestEnd error (Some (mkResponse (Some b)))) in
    pg_page (pagination that'') = Some NaN
    ∧ ∃ copy, pg_requestParams (pagination that'') = Some copy
              ∧ ("page", JNull) ∈ copy.
Proof.
  cbn zeta. split_and!.
  - reflexivity.
  - eexists; split; [reflexivity|]. apply list_elem_of_here.
  - reflexivity.
  - eexists; split; [reflexivity|]. apply list_elem_of_here.
Qed.

(** X17: page numbers written into the address come back.  When the query
    string carries [page] and [rowCount] as decimal numerals of numbers up
    to 2^53, where a numeral is read without rounding, the component starts
    on that page with that many rows, whatever the markup; the defaults 1
    and 15 play no part. *)
Theorem url_numbers_round_trip location component (n m : nat) :
  (Z.of_nat n ≤ 2 ^ 53)%Z →
  (Z.of_nat m ≤ 2 ^ 53)%Z →
  location !! "page" = Some (decimal n) →
  location !! "rowCount" = Some (decimal m) →
  page (requestParams (state_of (new location component))) = Num (Z.of_nat n)
  ∧ rowCount (requestParams (state_of (new location component)))
    = Num (Z.of_nat m).
Proof.
  intros _ _ Hpage Hrows. rewrite new_requestParams.
  unfold loadRequestParams, getPageNumber, getRowCount, readQueryString.
  rewrite Hpage, Hrows. cbn. unfold parseInt_value. cbn.
  rewrite !parseInt_decimal. by destruct (truthy _).
Qed.

Lemma url_numbers_round_trip_witness :
  page (requestParams (state_of
          (new {[ "page" := "12"; "rowCount" := "50" ]} users_table)))
  = Num 12
  ∧ rowCount (requestParams (state_of
                (new {[ "page" := "12"; "rowCount" := "50" ]} users_table)))
    = Num 50.
Proof.
  apply (url_numbers_round_trip
           {[ "page" := "12"; "rowCount" := "50" ]} users_table 12 50);
    (discriminate || reflexivity).
Defined.

End PageLinks.

(** ** Loads *)

Section Loads.

Implicit Types (that : Datagrid).

(** X12: a completion whose response has no JSON body is not a load.  The
    listener stores the response and then raises a [TypeError] before the
    page count is computed: the pagination widget keeps its old page count
    and parameters, the footer its old markup, the history is not called,
    and the parameters and the log of requests are as they were. *)
Theorem completion_without_body that error :
  ∃ that',
    loadData_end error (Some (mkResponse None)) that = Threw TypeError that'
    ∧ data that' = Some (GotResponse (mkResponse None))
    ∧ pageCount (pagination that') = pageCount (pagination that)
    ∧ pg_requestParams (pagination that') = pg_requestParams (pagination that)
    ∧ toolbarFooter that' = toolbarFooter that
    ∧ history that' = history that
    ∧ requestParams that' = requestParams that
    ∧ requests that' = requests that.
Proof. eexists; repeat split. Qed.

(** X14: rounding to the nearest integer drops a short last page.  For a
    body that reports integers, a [total] that is not negative and a
    positive [rowCount] with [total + rowCount] below [2^52], the page count
    is the number of full pages, plus one exactly when the rows left over
    fill half a page or more; so the pages counted hold fewer rows than
    [total] exactly when there are rows left over and they fill less than
    half a page. *)
Theorem page_count_drops_short_last_page that error b t r :
  total b = Some t → body_rowCount b = Some r →
  (0 ≤ t)%Z → (0 < r)%Z → (t + r < 2 ^ 52)%Z →
  ∃ n, pageCount (pagination (step that
         (RequestEnd error (Some (mkResponse (Some b)))))) = Some (Num n)
       ∧ n = (if (2 * (t mod r) <? r)%Z then t / r else t / r + 1)%Z
       ∧ ((n * r < t)%Z ↔ (0 < t mod r ∧ 2 * (t mod r) < r)%Z).
Proof.
  intros Ht Hr Hpos_t Hpos_r Hsum.
  rewrite pageCount_after_response, Ht, Hr.
  rewrite round_div_exact by lia.
  eexists; split; [reflexivity|].
  pose proof (Z.div_mod t r ltac:(lia)) as Hdiv.
  pose proof (Z.mod_pos_bound t r Hpos_r) as Hmod.
  assert (Hn : ((2 * t + r) / (2 * r)
                = if (2 * (t mod r) <? r) then t / r else t / r + 1)%Z).
  { destruct (Z.ltb_spec (2 * (t mod r)) r).
    - symmetry. apply (Z.div_unique _ _ _ (2 * (t mod r) + r)%Z); lia.
    - symmetry. apply (Z.div_unique _ _ _ (2 * (t mod r) - r)%Z); lia. }
  split; [exact Hn|]. rewrite Hn.
  destruct (Z.ltb_spec (2 * (t mod r)) r); nia.
Qed.

Lemma page_count_drops_short_last_page_witness :
  ∃ n, pageCount (pagination (step users_grid
         (RequestEnd None (Some (page_of 10 94))))) = Some (Num n)
       ∧ n = 9%Z
       ∧ ((n * 10 < 94)%Z ↔ (0 < 94 mod 10 ∧ 2 * (94 mod 10) < 10)%Z).
Proof.
  apply (page_count_drops_short_last_page users_grid None
           (mkBody (Some 1%Z) (Some 10%Z) (Some 94%Z) []) 94%Z 10%Z);
    [reflexivity | reflexivity | lia | lia | reflexivity].
Defined.

(** X15: the first request of a page with no query string.  When the table
    has a [data-src], a header cell is flagged as the default sort and its
    column is an identifier, the constructor returns after issuing exactly
    one request, to that address, whose parameters are page 1, 15 rows,
    that column and the direction the cell declares, in this order and with
    no search term; the loading row is shown and the history has not been
    called. *)
Theorem first_request_of_default_sort component url i th c d :
  data_src component = Some url →
  default_sort_header component i th →
  data_column th = Some c →
  data_sort th = Some d →
  css_ident c = true →
  ∃ that g,
    new ∅ component = Done that
    ∧ requests that = [g]
    ∧ get_url g = Str url
    ∧ serialize (get_query g)
      = [("page", SNum (Num 1)); ("rowCount", SNum (Num 15));
         ("sortColumn", SStr c); ("sortDirection", SStr d)]
    ∧ tbody that = TbodyLoading (length (header_cells component))
    ∧ history that = [].
Proof.
  intros Hsrc Hdefault Hc Hd Hident.
  assert (Hparams : loadRequestParams ∅ component
                    = mkRequestParams (Num 1) (Num 15) (Str c) (Str d) None).
  { unfold loadRequestParams, getPageNumber, getRowCount, getSortColumn,
      getSortDirection, getSearchTerm, readQueryString.
    rewrite !lookup_empty. cbn.
    rewrite (querySelector_default_sort_header _ _ _ Hdefault), Hc, Hd.
    reflexivity. }
  destruct (new_returns ∅ component) as (that & Hnew & Hreq).
  { by rewrite Hparams. }
  exists that, (mkGet (loadSrc component) (loadRequestParams ∅ component)).
  split_and!; [exact Hnew | exact Hreq | | by rewrite Hparams | |].
  - cbn. unfold loadSrc. by rewrite Hsrc.
  - apply (f_equal state_of) in Hnew. cbn in Hnew. subst that.
    unfold new. case_setSortHeaders; case_parseSearchbar; cbn;
      by rewrite ?length_alter, ?length_fmap.
  - apply (f_equal state_of) in Hnew. cbn in Hnew. subst that.
    apply new_history.
Qed.

Lemma first_request_of_default_sort_witness :
  ∃ that g,
    new ∅ users_table = Done that
    ∧ requests that = [g]
    ∧ get_url g = Str "/users.json"
    ∧ serialize (get_query g)
      = [("page", SNum (Num 1)); ("rowCount", SNum (Num 15));
         ("sortColumn", SStr "id"); ("sortDirection", SStr "desc")]
    ∧ tbody that = TbodyLoading 2
    ∧ history that = [].
Proof.
  apply (first_request_of_default_sort users_table "/users.json" 0
           (mkTh (Some "id") (Some "desc")) "id" "desc");
    [reflexivity | | reflexivity..].
  split_and!; [reflexivity | by eexists | intros j th' _ Hlt; lia].
Defined.

(** X16: a load is rendered against the parameters of the component, not
    against what the response says of itself.  The [current] page of the
    body is not read: the pagination widget is given the [page] of the
    parameters as they are when the response arrives, with a copy of them,
    and the history entry carries them too; two bodies with the same
    [total] and [rowCount] leave the same widget. *)
Theorem load_ignores_current that error b :
  let that' := step that (RequestEnd error (Some (mkResponse (Some b)))) in
  pg_page (pagination that') = Some (page (requestParams that))
  ∧ pg_requestParams (pagination that') = Some (json_copy (requestParams that))
  ∧ toolbarFooter that' = Some (pagination that')
  ∧ head (history that') = Some (HistoryPush (requestParams that))
  ∧ requestParams that' = requestParams that
  ∧ tbody that' = TbodyRows (ReadBody b)
  ∧ ∀ b', total b' = total b → body_rowCount b' = body_rowCount b →
          pagination (step that
            (RequestEnd error (Some (mkResponse (Some b')))))
          = pagination that'.
Proof.
  cbn zeta. split_and!; try reflexivity.
  intros b' Ht Hr. cbn. by rewrite Ht, Hr.
Qed.

Lemma load_ignores_current_witness :
  pagination (step users_grid (RequestEnd None (Some
    (mkResponse (Some (mkBody (Some 7%Z) (Some 10%Z) (Some 95%Z) []))))))
  = pagination (step users_grid (RequestEnd None (Some (page_of 10 95)))).
Proof.
  destruct (load_ignores_current users_grid None
              (mkBody (Some 1%Z) (Some 10%Z) (Some 95%Z) []))
    as (_ & _ & _ & _ & _ & _ & H).
  exact (H (mkBody (Some 7%Z) (Some 10%Z) (Some 95%Z) []) eq_refl eq_refl).
Defined.

End Loads.
